(** * KrushiAI crop recommendation: label resolution and top-k ranking

    A shallow embedding of [KrushiAI-Crop-Recommendation/app.py]: the
    module-level fallback mapping [int_to_class], the two label resolvers
    [to_crop_name] and [map_class_label], the ranking routine
    [top_k_predictions] and the [/predict] request handler.

    Python values are a small tagged union, exceptions are an explicit
    result type, and the calls that leave the module (the classifier's
    [predict] and [predict_proba], the label encoder's
    [inverse_transform]) are recorded in a call log threaded through a
    state-and-error monad. *)

From Stdlib Require Import ZArith QArith String Ascii DecimalString.
From stdpp Require Import base gmap strings list sorting.

Set Warnings "-register-all".

(** ** Python values and exceptions *)

(** The values that reach the resolvers.  [bool] is a subclass of [int];
    [np.str_] is a subclass of [str]; a 0-dimensional [ndarray] has no
    length; [PyObject] stands for every other object (a float, [None], a
    dict, ...) and carries the text that [str()] prints for it. *)
Inductive pyval : Type :=
| PyInt (n : Z)
| PyBool (b : bool)
| NpInteger (n : Z)
| PyStr (s : string)
| NpStr (s : string)
| PyList (items : list pyval)
| NdArray0 (item : pyval)
| NdArray (items : list pyval)
| PyObject (text : string).

Inductive exn : Type :=
| TypeError (msg : string)
| IndexError (msg : string)
| ValueError (msg : string)
| KeyError (msg : string)
| OtherException (msg : string).

(** [str(e)] for an exception [e]. *)
Definition exn_str (e : exn) : string :=
  match e with
  | TypeError m | IndexError m | ValueError m | KeyError m
  | OtherException m => m
  end.

Inductive res (A : Type) : Type :=
| Ok (a : A)
| Raise (e : exn).
Arguments Ok {A} a.
Arguments Raise {A} e.

(** [isinstance(v, (np.ndarray, list))] *)
Definition is_ndarray_or_list (v : pyval) : bool :=
  match v with
  | PyList _ | NdArray0 _ | NdArray _ => true
  | _ => false
  end.

(** [isinstance(v, (np.integer, int))] *)
Definition is_integer (v : pyval) : bool :=
  match v with
  | PyInt _ | PyBool _ | NpInteger _ => true
  | _ => false
  end.

(** [isinstance(v, (np.str_, str))] *)
Definition is_str (v : pyval) : bool :=
  match v with
  | PyStr _ | NpStr _ => true
  | _ => false
  end.

(** [int(v)] on the values for which [is_integer] holds. *)
Definition py_int (v : pyval) : Z :=
  match v with
  | PyInt n | NpInteger n => n
  | PyBool b => if b then 1%Z else 0%Z
  | _ => 0%Z
  end.

(** [len(v)]: a 0-dimensional array is unsized. *)
Definition py_len (v : pyval) : res Z :=
  match v with
  | PyList items | NdArray items => Ok (Z.of_nat (length items))
  | PyStr s | NpStr s => Ok (Z.of_nat (String.length s))
  | NdArray0 _ => Raise (TypeError "len() of unsized object")
  | _ => Raise (TypeError "object has no len()")
  end.

(** [xs[i]] on a Python list or along the first axis of an array, for
    [0 <= i]. *)
Definition seq_getitem {A : Type} (xs : list A) (i : nat) : res A :=
  match xs !! i with
  | Some x => Ok x
  | None => Raise (IndexError "index out of range")
  end.

(** [v[0]] *)
Definition py_getitem0 (v : pyval) : res pyval :=
  match v with
  | PyList items | NdArray items => seq_getitem items 0
  | PyStr s | NpStr s =>
      match s with
      | String c _ => Ok (PyStr (String c EmptyString))
      | EmptyString => Raise (IndexError "string index out of range")
      end
  | NdArray0 _ => Raise (IndexError "too many indices for array")
  | _ => Raise (TypeError "object is not subscriptable")
  end.

(** Decimal text of a Python integer. *)
Definition int_str (n : Z) : string := NilZero.string_of_int (Z.to_int n).

(** [str(v)].  What [str()] prints for lists and arrays (the element-wise
    [repr], numpy's array formatting) is library behaviour, taken as the
    parameter [str_container]. *)
Definition py_str (str_container : pyval → string) (v : pyval) : string :=
  match v with
  | PyInt n | NpInteger n => int_str n
  | PyBool b => if b then "True" else "False"
  | PyStr s | NpStr s => s
  | PyObject text => text
  | PyList _ | NdArray0 _ | NdArray _ => str_container v
  end.

(** [s.lower()] on ASCII text: the letters A to Z go to a to z and every
    other character is unchanged. *)
Definition lower_ascii (c : ascii) : ascii :=
  let n := nat_of_ascii c in
  if ((65 <=? n) && (n <=? 90))%nat then ascii_of_nat (n + 32) else c.

Fixpoint str_lower (s : string) : string :=
  match s with
  | EmptyString => EmptyString
  | String c s' => String (lower_ascii c) (str_lower s')
  end.

(** Whether two characters are the same letter, in the same or in
    different case. *)
Definition is_lower_letter (c : ascii) : bool :=
  let n := nat_of_ascii c in ((97 <=? n) && (n <=? 122))%nat.

Definition upper_ascii (c : ascii) : ascii :=
  if is_lower_letter c then ascii_of_nat (nat_of_ascii c - 32) else c.

Definition same_letter (c d : ascii) : bool :=
  Ascii.eqb (upper_ascii c) (upper_ascii d).

(** [recapitalized s t]: [t] is [s] with the case of some letters
    changed. *)
Fixpoint recapitalized (s t : string) : bool :=
  match s, t with
  | EmptyString, EmptyString => true
  | String c s', String d t' => same_letter c d && recapitalized s' t'
  | _, _ => false
  end.

(** Text made of ASCII characters only. *)
Fixpoint is_ascii (s : string) : bool :=
  match s with
  | EmptyString => true
  | String c s' => (nat_of_ascii c <? 128)%nat && is_ascii s'
  end.

(** What the module relies on from Python's [str.lower]: on ASCII text it
    is [str_lower].  What it does to other text (the Unicode case
    mappings) is left open. *)
Definition lower_spec (lower : string → string) : Prop :=
  ∀ s, is_ascii s = true → lower s = str_lower s.

(** ** Python dicts *)

(** A [dict] with string keys as [json.load] builds it: the bindings in
    insertion order. *)
Definition pydict (V : Type) : Type := list (string * V).

Definition dict_keys {V : Type} (d : pydict V) : list string := d.*1.

Fixpoint dict_lookup {V : Type} (d : pydict V) (k : string) : option V :=
  match d with
  | [] => None
  | (k', v) :: d' => if decide (k' = k) then Some v else dict_lookup d' k
  end.

(** [d.get(k, default)] *)
Definition dict_get {V : Type} (d : pydict V) (k : string) (default : V) : V :=
  match dict_lookup d k with
  | Some v => v
  | None => default
  end.

(** [sorted(keys)] on strings: ascending in code-point order. *)
Definition sorted (keys : list string) : list string :=
  merge_sort String.le keys.

(** [enumerate(xs, start)] *)
Fixpoint enumerate_from {A : Type} (start : Z) (xs : list A) : list (Z * A) :=
  match xs with
  | [] => []
  | x :: xs' => (start, x) :: enumerate_from (start + 1) xs'
  end.

Definition enumerate {A : Type} (xs : list A) : list (Z * A) :=
  enumerate_from 0 xs.

(** ** Effects: a call log and exceptions *)

Section Effects.
(** The feature rows handed to the classifier. *)
Context {F : Type}.

(** The calls that leave the module. *)
Inductive call : Type :=
| CallInverseTransform (i : Z)
| CallPredict (x : F)
| CallPredictProba (x : F).

Definition Py (A : Type) : Type := list call → res A * list call.

Definition ret {A : Type} (a : A) : Py A := λ log, (Ok a, log).

Definition raise {A : Type} (e : exn) : Py A := λ log, (Raise e, log).

Definition bind {A B : Type} (m : Py A) (k : A → Py B) : Py B :=
  λ log,
    match m log with
    | (Ok a, log') => k a log'
    | (Raise e, log') => (Raise e, log')
    end.

(** [try: m  except Exception as e: h e] *)
Definition try_except {A : Type} (m : Py A) (h : exn → Py A) : Py A :=
  λ log,
    match m log with
    | (Ok a, log') => (Ok a, log')
    | (Raise e, log') => h e log'
    end.

Definition lift {A : Type} (r : res A) : Py A := λ log, (r, log).

(** An outside call: logged, then its outcome. *)
Definition external {A : Type} (c : call) (r : res A) : Py A :=
  λ log, (r, log ++ [c]).

(** The body of a [for] loop that appends one item per element. *)
Fixpoint for_each {A B : Type} (f : A → Py B) (xs : list A) : Py (list B) :=
  match xs with
  | [] => ret []
  | x :: xs' =>
      bind (f x) (λ y, bind (for_each f xs') (λ ys, ret (y :: ys)))
  end.
End Effects.
Arguments call F : clear implicits.
Arguments Py F A : clear implicits.

Notation "x <- c1 ;; c2" := (bind c1 (λ x, c2))
  (at level 100, c1 at next level, right associativity).

(** ** Request and response data *)

(** A parsed JSON body.  Numbers keep their literal text: turning one into
    a float is [float()]'s business. *)
Inductive json : Type :=
| JNull
| JBool (b : bool)
| JNumber (literal : string)
| JString (s : string)
| JArray (items : list json)
| JObject (fields : gmap string json).

(** One entry of the [top_3] list. *)
Record ranked : Type := Ranked {
  label : string;
  probability : Q;
  info : string;
}.

(** The JSON object a handler returns: [{'error': ...}] or
    [{'prediction': ..., 'info': ..., 'top_3': ...}] with [top_3] optional. *)
Inductive body : Type :=
| ErrorBody (error : string)
| PredictionBody (prediction : string) (info : string)
                 (top_3 : option (list ranked)).

Record response : Type := Response {
  resp_body : body;
  resp_status : Z;
}.

(** [xs[:k]] *)
Definition slice_to {A : Type} (k : Z) (xs : list A) : list A :=
  if (0 <=? k)%Z then take (Z.to_nat k) xs
  else take (length xs - Z.to_nat (- k)) xs.

(** Truthiness of [None] or a list, as tested by [if top3:]. *)
Definition truthy {A : Type} (v : option (list A)) : bool :=
  match v with
  | Some (_ :: _) => true
  | _ => false
  end.

(** ** The module's globals and functions *)

(** The unpickled classifier, seen through the attributes the module
    touches: [model.predict(features)] (an array of predictions, one per
    row), [model.predict_proba] and [model.classes_] when the object has
    them.  Probabilities are the finite floats they stand for. *)
Record classifier (F : Type) : Type := Classifier {
  model_predict : F → res (list pyval);
  model_predict_proba : option (F → res (list (list Q)));
  model_classes_ : option (list pyval);
}.
Arguments Classifier {F}.
Arguments model_predict {F}.
Arguments model_predict_proba {F}.
Arguments model_classes_ {F}.

Definition no_information : string := "No information available for this crop.".

Definition required : list string :=
  ["nitrogen"; "phosphorus"; "potassium"; "temperature"; "humidity"; "ph";
   "rainfall"].

Section App.
(** Python floats, and [float(v)] on a parsed JSON value. *)
Context {float64 : Type}.
(** [s.lower()], Python's lowercasing of a string. *)
Variable lower : string → string.
Variable py_float : json → res float64.
Variable str_container : pyval → string.
(** [np.argsort] on a one-dimensional array of floats. *)
Variable argsort : list Q → list nat.
(** [RandomForest.pkl] *)
Variable model : classifier (list float64).
(** [crop_info.json], loaded at import time. *)
Variable crop_info : pydict string.
(** [LabelEncoder.pkl] when it exists and unpickles, as the function
    [i ↦ label_encoder.inverse_transform([i])[0]]; [None] otherwise. *)
Variable label_encoder : option (Z → res pyval).

Local Abbreviation F := (list float64).
Local Abbreviation str := (py_str str_container).

Definition alphabetical_classes : list string := sorted (dict_keys crop_info).

(** [{i: cls for i, cls in enumerate(alphabetical_classes)}] *)
Definition int_to_class : gmap Z string :=
  foldl (λ d '(i, cls), <[i := cls]> d) ∅ (enumerate alphabetical_classes).

Definition to_crop_name (pred_val : pyval) : Py F string :=
  (* unwrap numpy arrays *)
  pred_val <-
    (if is_ndarray_or_list pred_val then
       n <- lift (py_len pred_val) ;;
       if bool_decide (n = 1%Z) then lift (py_getitem0 pred_val)
       else ret pred_val
     else ret pred_val) ;;
  (* an integer label is mapped back to a class name *)
  if is_integer pred_val then
    (* try the LabelEncoder if present *)
    decoded <-
      match label_encoder with
      | Some inverse_transform =>
          try_except
            (r <- external (CallInverseTransform (py_int pred_val))
                           (inverse_transform (py_int pred_val)) ;;
             ret (Some (str r)))
            (λ _, ret None)
      | None => ret None
      end ;;
    match decoded with
    | Some name => ret name
    | None =>
        (* fall back to the alphabetical mapping *)
        ret (default (str pred_val) (int_to_class !! py_int pred_val))
    end
  (* already a string-like label *)
  else if is_str pred_val then ret (str pred_val)
  (* last resort *)
  else ret (str pred_val).

Definition map_class_label (cls_val : pyval) : Py F string :=
  (* string-like: returned as it is *)
  if is_str cls_val then ret (str cls_val)
  (* numeric: the label encoder, then the fallback mapping *)
  else if is_integer cls_val then
    decoded <-
      match label_encoder with
      | Some inverse_transform =>
          try_except
            (r <- external (CallInverseTransform (py_int cls_val))
                           (inverse_transform (py_int cls_val)) ;;
             ret (Some (str r)))
            (λ _, ret None)
      | None => ret None
      end ;;
    match decoded with
    | Some name => ret name
    | None => ret (default (str cls_val) (int_to_class !! py_int cls_val))
    end
  (* else, stringify *)
  else ret (str cls_val).

Definition top_k_predictions (features : F) (k : Z)
  : Py F (option (list ranked)) :=
  match model_predict_proba model with
  | None => ret None
  | Some predict_proba =>
      proba <- external (CallPredictProba features) (predict_proba features) ;;
      match model_classes_ model with
      | None => ret None
      | Some classes =>
          probs <- lift (seq_getitem proba 0) ;;
          let indices := slice_to k (reverse (argsort probs)) in
          results <-
            for_each
              (λ idx,
                 cls <- lift (seq_getitem classes idx) ;;
                 label <- map_class_label cls ;;
                 p <- lift (seq_getitem probs idx) ;;
                 let info :=
                   dict_get crop_info (lower label) no_information in
                 ret (Ranked label p info))
              indices ;;
          ret (Some results)
      end
  end.

(** The validation loop of [predict]: the first key of [keys] that is
    not in [data]. *)
Fixpoint first_missing (data : gmap string json) (keys : list string)
  : option string :=
  match keys with
  | [] => None
  | key :: keys' =>
      if decide (data !! key = None) then Some key
      else first_missing data keys'
  end.

(** [float(data[key])] *)
Definition float_field (data : gmap string json) (key : string)
  : res float64 :=
  match data !! key with
  | Some v => py_float v
  | None => Raise (KeyError key)
  end.

(** The [/predict] handler; [data] is [request.get_json(silent=True)],
    [None] when the body does not parse. *)
Definition predict (data : option json) : Py F response :=
  match data with
  | Some (JObject data) =>
      try_except
        (match first_missing data required with
         | Some key =>
             ret (Response (ErrorBody ("Missing field: " ++ key)) 400)
         | None =>
             nitrogen <- lift (float_field data "nitrogen") ;;
             phosphorus <- lift (float_field data "phosphorus") ;;
             potassium <- lift (float_field data "potassium") ;;
             temperature <- lift (float_field data "temperature") ;;
             humidity <- lift (float_field data "humidity") ;;
             ph <- lift (float_field data "ph") ;;
             rainfall <- lift (float_field data "rainfall") ;;
             let features :=
               [nitrogen; phosphorus; potassium; temperature; humidity; ph;
                rainfall] in
             prediction <-
               external (CallPredict features) (model_predict model features) ;;
             first <- lift (seq_getitem prediction 0) ;;
             label_str <- to_crop_name first ;;
             let crop_key := lower label_str in
             top3 <- top_k_predictions features 3 ;;
             ret (Response
                    (PredictionBody
                       label_str
                       (dict_get crop_info crop_key no_information)
                       (if truthy top3 then top3 else None))
                    200)
         end)
        (λ e, ret (Response (ErrorBody (exn_str e)) 500))
  | _ => ret (Response (ErrorBody "Invalid JSON body") 400)
  end.

(** *** Characterisations used in the proofs *)

(** The integer branch, written once for the proofs: what both
    resolvers compute on an integer-typed value. *)
Definition integer_outcome (v : pyval) (log : list (call F))
  : res string * list (call F) :=
  match label_encoder with
  | Some inverse_transform =>
      match inverse_transform (py_int v) with
      | Ok r => (Ok (str r), log ++ [CallInverseTransform (py_int v)])
      | Raise _ =>
          (Ok (default (str v) (int_to_class !! py_int v)),
           log ++ [CallInverseTransform (py_int v)])
      end
  | None => (Ok (default (str v) (int_to_class !! py_int v)), log)
  end.

(** The seven conversions [float(data[key])] of [predict], in order:
    the first one that fails raises. *)
Fixpoint float_fields (data : gmap string json) (keys : list string)
  : res (list float64) :=
  match keys with
  | [] => Ok []
  | key :: keys' =>
      match float_field data key with
      | Raise e => Raise e
      | Ok x =>
          match float_fields data keys' with
          | Raise e => Raise e
          | Ok xs => Ok (x :: xs)
          end
      end
  end.

(** What [predict] does once the request is validated and converted. *)
Definition predict_features (features : F) : Py F response :=
  prediction <-
    external (CallPredict features) (model_predict model features) ;;
  first <- lift (seq_getitem prediction 0) ;;
  label_str <- to_crop_name first ;;
  let crop_key := lower label_str in
  top3 <- top_k_predictions features 3 ;;
  ret (Response
         (PredictionBody
            label_str
            (dict_get crop_info crop_key no_information)
            (if truthy top3 then top3 else None))
         200).

(** After the unwrapping step [to_crop_name] goes on with this value. *)
Definition unwrapped (v : pyval) : res pyval :=
  match v with
  | PyList [x] | NdArray [x] => Ok x
  | NdArray0 _ => Raise (TypeError "len() of unsized object")
  | _ => Ok v
  end.
End App.

(** ** A concrete [argsort] *)

Definition Qltb (x y : Q) : bool := negb (Qle_bool y x).

(** [v[i]] for an index that [argsort] produced. *)
Definition prob_at (v : list Q) (i : nat) : Q := default 0%Q (v !! i).

(** Insertion of index [i] into an index list already ordered by value:
    [i] goes before the first index whose value is strictly greater. *)
Fixpoint insert_index (v : list Q) (i : nat) (idx : list nat) : list nat :=
  match idx with
  | [] => [i]
  | j :: idx' =>
      if Qltb (prob_at v i) (prob_at v j) then i :: j :: idx'
      else j :: insert_index v i idx'
  end.

(** The order-preserving argsort: insertion sort over the indices
    [0 .. len(v)-1], the way numpy's default sort handles a short array;
    equal values keep their index order. *)
Definition insertion_argsort (v : list Q) : list nat :=
  foldl (λ idx i, insert_index v i idx) [] (seq 0 (length v)).

(** What the module relies on from [np.argsort]: the indices of [v], in
    ascending order of value.  The order among equal values is left open,
    as numpy's default sort leaves it. *)
Definition argsort_spec (argsort : list Q → list nat) : Prop :=
  ∀ v, argsort v ≡ₚ seq 0 (length v) ∧
       StronglySorted (λ i j, (prob_at v i <= prob_at v j)%Q) (argsort v).

Definition by_probability_descending (a b : ranked) : Prop :=
  (probability b <= probability a)%Q.

(** The tie rule in the specification's words: of two entries with equal
    probability, the one whose class comes earlier in the class order is
    ranked first. *)
Definition first_seen_wins (class_names : list string) (results : list ranked)
  : Prop :=
  ∀ i j a b,
    i < j → results !! i = Some a → results !! j = Some b →
    (probability a == probability b)%Q →
    ∃ ia ib, class_names !! ia = Some (label a) ∧
             class_names !! ib = Some (label b) ∧ ia < ib.

(** ** Sample globals, for the worked instances *)

Definition sample_str_container (v : pyval) : string := "[...]".

Definition sample_crop_info : pydict string :=
  [("rice", "Rice needs standing water.");
   ("banana", "Banana needs a warm climate.");
   ("wheat", "Wheat needs a cool season.")].

(** Three classes with the probabilities 0.1, 0.7 and 0.2. *)
Definition sample_model : classifier (list Q) :=
  Classifier (λ _, Ok [NpInteger 0])
             (Some (λ _, Ok [[1 # 10; 7 # 10; 2 # 10]%Q]))
             (Some [PyStr "rice"; PyStr "maize"; PyStr "jute"]).

(** Two classes with equal probability. *)
Definition tie_model : classifier (list Q) :=
  Classifier (λ _, Ok [PyStr "rice"])
             (Some (λ _, Ok [[1 # 2; 1 # 2]%Q]))
             (Some [PyStr "rice"; PyStr "maize"]).

(** A classifier without [classes_] whose [predict_proba] raises, as an
    estimator that was never fitted does. *)
Definition unfitted_model : classifier (list Q) :=
  Classifier (λ _, Ok [PyStr "rice"])
             (Some (λ _, Raise (OtherException "This instance is not fitted yet.")))
             None.

(** A classifier with neither [predict_proba] nor [classes_]. *)
Definition plain_model : classifier (list Q) :=
  Classifier (λ _, Ok [PyStr "Rice"]) None None.

(** An encoder fitted on the single label Rice. *)
Definition sample_encoder (i : Z) : res pyval :=
  if decide (i = 0%Z) then Ok (NpStr "Rice")
  else Raise (ValueError "y contains previously unseen labels").

(** [float()] on the values of the sample requests: JSON numbers only. *)
Definition sample_float (v : json) : res Q :=
  match v with
  | JNumber _ => Ok 50%Q
  | _ => Raise (TypeError "float() argument must be a string or a real number")
  end.

Definition sample_request : gmap string json :=
  list_to_map ((λ key, (key, JNumber "50")) <$> required).

(** The same request without its [humidity] and [rainfall] fields. *)
Definition short_request : gmap string json :=
  delete "rainfall" (delete "humidity" sample_request).

(** ** The CORS configuration *)

(** [c.isspace()] on ASCII characters: tab to carriage return, the four
    separators 28 to 31, and the space. *)
Definition is_space (c : ascii) : bool :=
  let n := nat_of_ascii c in
  (((9 <=? n) && (n <=? 13)) || ((28 <=? n) && (n <=? 32)))%nat.

Fixpoint lstrip (s : string) : string :=
  match s with
  | EmptyString => EmptyString
  | String c s' => if is_space c then lstrip s' else s
  end.

Fixpoint rstrip (s : string) : string :=
  match s with
  | EmptyString => EmptyString
  | String c s' =>
      match rstrip s' with
      | EmptyString => if is_space c then EmptyString else String c EmptyString
      | r => String c r
      end
  end.

(** [s.strip()] *)
Definition str_strip (s : string) : string := rstrip (lstrip s).

(** [s.split(',')]: the pieces between commas, empty pieces included;
    never an empty list. *)
Fixpoint split_comma (s : string) : list string :=
  match s with
  | EmptyString => [EmptyString]
  | String c s' =>
      if Ascii.eqb c "," then EmptyString :: split_comma s'
      else match split_comma s' with
           | piece :: pieces => String c piece :: pieces
           | [] => [String c EmptyString]
           end
  end.

(** The origins handed to [CORS] at import time, from the value of the
    environment variable [ALLOWED_ORIGINS] ([None] when it is unset).  The
    result [None] stands for the plain [CORS(app)], which allows every
    origin. *)
Definition cors_origins (env : option string) : option (list string) :=
  let _allowed := default "*" env in
  if bool_decide (_allowed = "*") || bool_decide (str_strip _allowed = "")
  then None
  else Some (str_strip <$>
             filter (λ o, str_strip o ≠ "") (split_comma _allowed)).

(** The characters of a string. *)
Fixpoint chars (s : string) : list ascii :=
  match s with
  | EmptyString => []
  | String c s' => c :: chars s'
  end.

(** ** The SQLite store of [lib/database.py] *)

(** The state of [agrisens.db]: the rows of the two tables in rowid
    order, and for each table the largest rowid ever handed out (the
    [sqlite_sequence] entry that [AUTOINCREMENT] keeps).  Usernames,
    passwords and farm fields are the strings of the callers' text inputs,
    user ids are integers.  Each function opens a connection, runs its
    statements and commits, so it is one step on this state; failures of
    the database file itself (locked, unreadable) are outside the model. *)
Record user_row : Type := UserRow {
  user_id : Z;
  username : string;
  password_hash : string;
}.

Record farm_row : Type := FarmRow {
  farm_id : Z;
  farm_user_id : Z;
  farm_name : string;
  location : string;
  soil_type : string;
}.

Record database : Type := Database {
  users : list user_row;
  users_seq : Z;
  farms : list farm_row;
  farms_seq : Z;
}.


(** The rowid [AUTOINCREMENT] gives to a new row: one more than the
    largest rowid the table has or ever had. *)
Definition next_rowid (seq : Z) (ids : list Z) : Z :=
  (foldr Z.max seq ids + 1)%Z.

Section Store.
(** [hashlib.sha256(data).hexdigest()] *)
Variable sha256_hexdigest : string → string.

Definition hash_password (password : string) : string :=
  sha256_hexdigest password.

(** [INSERT INTO users (username, password_hash) VALUES (?, ?)]: the
    [UNIQUE] constraint on [username] raises [IntegrityError], which
    [add_user] turns into [False]; nothing is committed then. *)
Definition add_user (db : database) (name password : string)
  : bool * database :=
  if bool_decide (name ∈ username <$> users db) then (false, db)
  else
    let id := next_rowid (users_seq db) (user_id <$> users db) in
    (true,
     Database (users db ++ [UserRow id name (hash_password password)]) id
              (farms db) (farms_seq db)).

(** [SELECT * FROM users WHERE username = ?], [fetchone()], and the test
    [user and user['password_hash'] == hash_password(password)]. *)
Definition check_user (db : database) (name password : string)
  : option user_row :=
  match find (λ row, bool_decide (username row = name)) (users db) with
  | Some user =>
      if bool_decide (password_hash user = hash_password password)
      then Some user else None
  | None => None
  end.

(** [SELECT * FROM farms WHERE user_id = ?] and [fetchone()]. *)
Definition get_farm_details (db : database) (uid : Z) : option farm_row :=
  find (λ row, bool_decide (farm_user_id row = uid)) (farms db).

(** The [UPDATE] when a row for the user exists, the [INSERT] otherwise;
    the function returns [True] in both cases. *)
Definition update_farm_details (db : database) (uid : Z)
    (name place soil : string) : bool * database :=
  match find (λ row, bool_decide (farm_user_id row = uid)) (farms db) with
  | Some _ =>
      (true,
       Database (users db) (users_seq db)
                ((λ row,
                    if bool_decide (farm_user_id row = uid)
                    then FarmRow (farm_id row) (farm_user_id row) name place soil
                    else row) <$> farms db)
                (farms_seq db))
  | None =>
      let id := next_rowid (farms_seq db) (farm_id <$> farms db) in
      (true,
       Database (users db) (users_seq db)
                (farms db ++ [FarmRow id uid name place soil]) id)
  end.
End Store.

(** What the schema guarantees of a stored state: usernames are unique
    and the primary keys of each table are unique. *)
Definition database_ok (db : database) : Prop :=
  NoDup (username <$> users db) ∧
  NoDup (user_id <$> users db) ∧
  NoDup (farm_id <$> farms db).

(** Calls to the classifier, as opposed to calls to the label encoder. *)
Definition is_classifier_call {F : Type} (c : call F) : bool :=
  match c with
  | CallInverseTransform _ => false
  | CallPredict _ | CallPredictProba _ => true
  end.

(** The calls a computation adds to the log are encoder calls only. *)
Definition encoder_only {F A : Type} (m : Py F A) : Prop :=
  ∀ log, ∃ r calls,
    m log = (r, log ++ calls) ∧ filter is_classifier_call calls = [].

(** [described_by lower crop_info label description]: [description] is
    the text the catalog gives for [label].  It is the entry stored under
    the lowercased label; so for a lowercase ASCII key it is that key's
    entry whatever the capitalisation of the label; and it is the sentinel
    when the lowercased label is not a key. *)
Definition described_by (lower : string → string) (crop_info : pydict string)
    (label description : string) : Prop :=
  description = dict_get crop_info (lower label) no_information ∧
  (∀ key text,
     is_ascii key = true → str_lower key = key →
     recapitalized key label = true →
     dict_lookup crop_info key = Some text →
     description = text) ∧
  (lower label ∉ dict_keys crop_info →
   description = "No information available for this crop.").

(** A classifier that writes its labels in capitals. *)
Definition shouting_model : classifier (list Q) :=
  Classifier (λ _, Ok [NpStr "RICE"])
             (Some (λ _, Ok [[6 # 10; 4 # 10]%Q]))
             (Some [PyStr "Rice"; PyStr "MAIZE"]).

(** ** Further sample data *)

(** A request whose [ph] field is a string that is not a number. *)
Definition acid_request : gmap string json :=
  <["ph" := JString "acid"]> sample_request.

(** A classifier whose [predict] raises. *)
Definition failing_model : classifier (list Q) :=
  Classifier (λ _, Raise (OtherException "model failure")) None None.

(** Three probabilities for two classes. *)
Definition short_model : classifier (list Q) :=
  Classifier (λ _, Ok [PyStr "rice"])
             (Some (λ _, Ok [[1 # 10; 2 # 10; 7 # 10]%Q]))
             (Some [PyStr "rice"; PyStr "maize"]).

(** A stand-in for the digest in the worked instances. *)
Definition sample_digest (data : string) : string := "digest of " +:+ data.

(** A store with one account and that account's farm. *)
Definition sample_database : database :=
  Database [UserRow 1 "asha" (sample_digest "monsoon")] 1
           [FarmRow 1 1 "Green Acres" "Pune" "Loamy"] 1.

(** ** The label resolvers *)

Section Resolvers.
Context {float64 : Type}.
Variable str_container : pyval → string.
Variable crop_info : pydict string.
Variable label_encoder : option (Z → res pyval).

Local Abbreviation F := (list float64).
Local Abbreviation str := (py_str str_container).
Local Abbreviation to_crop_name :=
  (to_crop_name (float64 := float64) str_container crop_info label_encoder).
Local Abbreviation map_class_label :=
  (map_class_label (float64 := float64) str_container crop_info label_encoder).
Local Abbreviation integer_outcome :=
  (integer_outcome (float64 := float64) str_container crop_info label_encoder).

Lemma to_crop_name_integer_outcome v log :
  is_integer v = true → to_crop_name v log = integer_outcome v log.
Proof.
  intros Hint. unfold to_crop_name, integer_outcome.
  destruct v; try discriminate Hint; cbn;
    (destruct label_encoder as [it|]; cbn; [|reflexivity]);
    unfold try_except, bind, external; cbn;
    match goal with |- context [it ?i] => destruct (it i) end; reflexivity.
Qed.

Lemma map_class_label_integer_outcome v log :
  is_integer v = true → map_class_label v log = integer_outcome v log.
Proof.
  intros Hint. unfold map_class_label, integer_outcome.
  destruct v; try discriminate Hint; cbn;
    (destruct label_encoder as [it|]; cbn; [|reflexivity]);
    unfold try_except, bind, external; cbn;
    match goal with |- context [it ?i] => destruct (it i) end; reflexivity.
Qed.

Lemma integer_outcome_ok v log :
  ∃ name log', integer_outcome v log = (Ok name, log').
Proof.
  unfold integer_outcome. destruct label_encoder as [it|]; [|eauto].
  destruct (it (py_int v)); eauto.
Qed.

(** Neither string-like nor integer nor container: the value is
    stringified by the last branch of either resolver. *)
Lemma map_class_label_other v log :
  is_integer v = false → map_class_label v log = (Ok (str v), log).
Proof.
  intros Hint. unfold map_class_label.
  destruct v; try discriminate Hint; reflexivity.
Qed.

(** [map_class_label] returns a string on every class value. *)
Lemma map_class_label_ok v log :
  ∃ name log', map_class_label v log = (Ok name, log').
Proof.
  destruct (is_integer v) eqn:Hint.
  - rewrite map_class_label_integer_outcome by done. apply integer_outcome_ok.
  - rewrite map_class_label_other by done. eauto.
Qed.

Lemma to_crop_name_scalar v log :
  is_ndarray_or_list v = false →
  to_crop_name v log = map_class_label v log.
Proof.
  intros Hc. destruct (is_integer v) eqn:Hint.
  - by rewrite to_crop_name_integer_outcome, map_class_label_integer_outcome.
  - rewrite map_class_label_other by done.
    unfold to_crop_name.
    destruct v; try discriminate Hc; try discriminate Hint; reflexivity.
Qed.

Lemma to_crop_name_unwrap v log :
  to_crop_name v log =
  match unwrapped v with
  | Ok x => if is_ndarray_or_list x then (Ok (str x), log)
            else map_class_label x log
  | Raise e => (Raise e, log)
  end.
Proof.
  destruct v as [| | | | |items|item|items|]; try (by apply to_crop_name_scalar).
  - destruct items as [|x [|y items]]; [reflexivity| |].
    + destruct x; reflexivity.
    + unfold to_crop_name, bind, lift; cbn -[Z.of_nat].
      rewrite bool_decide_eq_false_2 by (cbn [length]; lia). reflexivity.
  - reflexivity.
  - destruct items as [|x [|y items]]; [reflexivity| |].
    + destruct x; reflexivity.
    + unfold to_crop_name, bind, lift; cbn -[Z.of_nat].
      rewrite bool_decide_eq_false_2 by (cbn [length]; lia). reflexivity.
Qed.

(** Away from 0-dimensional arrays [to_crop_name] returns a string. *)
Lemma to_crop_name_ok v log :
  (∀ item, v ≠ NdArray0 item) →
  ∃ name log', to_crop_name v log = (Ok name, log').
Proof.
  intros Hv. rewrite to_crop_name_unwrap.
  destruct (unwrapped v) as [x|e] eqn:Hu.
  - destruct (is_ndarray_or_list x); [eauto | apply map_class_label_ok].
  - destruct v as [| | | | |[|? [|]]|item|[|? [|]]|]; try discriminate Hu.
    by destruct (Hv item).
Qed.

(** C1, defect: [to_crop_name] does not return a string on every input.
    On a 0-dimensional numpy array the unwrapping test calls [len()],
    which raises [TypeError] for an unsized object, and the exception
    leaves the function; nothing is logged and no string is produced. *)
Theorem to_crop_name_unsized_array_raises item log :
  to_crop_name (NdArray0 item) log =
  (Raise (TypeError "len() of unsized object"), log).
Proof. reflexivity. Qed.

(** C4: on an integer input, a present encoder whose inverse transform
    succeeds decides the result; with the encoder absent or raising, the
    entry of the alphabetical mapping [int_to_class] for that index is
    returned; and when the index has no entry there either, the
    stringified input itself is returned. *)
Theorem to_crop_name_integer_fallbacks v log :
  is_integer v = true →
  (∀ inverse_transform r,
     label_encoder = Some inverse_transform →
     inverse_transform (py_int v) = Ok r →
     to_crop_name v log =
     (Ok (str r), log ++ [CallInverseTransform (py_int v)])) ∧
  (label_encoder = None ∨
   (∃ inverse_transform e,
      label_encoder = Some inverse_transform ∧
      inverse_transform (py_int v) = Raise e) →
   (∀ name, int_to_class crop_info !! py_int v = Some name →
            (to_crop_name v log).1 = Ok name) ∧
   (int_to_class crop_info !! py_int v = None →
    (to_crop_name v log).1 = Ok (str v))).
Proof.
  intros Hint. rewrite to_crop_name_integer_outcome by done.
  unfold integer_outcome. split.
  - intros it r -> Hr. by rewrite Hr.
  - intros [-> | (it & e & -> & He)]; [|rewrite He];
      (split; [intros name Hname | intros Hnone]); cbn;
      by rewrite ?Hname, ?Hnone.
Qed.

(** C8: a string-typed input, [str] or [np.str_], comes back unchanged;
    this holds for every encoder and every catalog, and the call log is
    untouched, so neither the encoder nor the fallback mapping is
    consulted. *)
Theorem to_crop_name_string_unchanged s log :
  to_crop_name (PyStr s) log = (Ok s, log) ∧
  to_crop_name (NpStr s) log = (Ok s, log).
Proof. split; reflexivity. Qed.

(** C9: on every input that is neither a list nor an array,
    [map_class_label] and [to_crop_name] give the same result and leave
    the same call log. *)
Theorem map_class_label_agrees_with_to_crop_name v log :
  is_ndarray_or_list v = false →
  map_class_label v log = to_crop_name v log.
Proof. intros Hc. symmetry. by apply to_crop_name_scalar. Qed.

(** C10: a list or array whose length is not 1 is not unwrapped: the
    whole container is stringified by the last branch, and the encoder
    is not called. *)
Theorem to_crop_name_keeps_container v n log :
  is_ndarray_or_list v = true →
  py_len v = Ok n →
  n ≠ 1%Z →
  to_crop_name v log = (Ok (str v), log).
Proof.
  intros Hc Hlen Hn. rewrite to_crop_name_unwrap.
  destruct v as [| | | | |items|item|items|]; try discriminate Hc;
    try discriminate Hlen;
    (destruct items as [|x [|y items]]; [reflexivity| |reflexivity]);
    injection Hlen as <-; by destruct Hn.
Qed.
End Resolvers.

(** ** The fallback mapping *)

Section Mapping.
Implicit Types (keys : list string) (d : gmap Z string).

Lemma sorted_Permutation keys : sorted keys ≡ₚ keys.
Proof. apply merge_sort_Permutation. Qed.

Lemma sorted_StronglySorted keys : StronglySorted String.le (sorted keys).
Proof. apply (StronglySorted_merge_sort _). Qed.

Lemma sorted_length keys : length (sorted keys) = length keys.
Proof. by rewrite sorted_Permutation. Qed.

(** Sorting forgets the order in which the keys were inserted. *)
Lemma sorted_order_independent keys keys' :
  keys' ≡ₚ keys → sorted keys' = sorted keys.
Proof.
  intros Hp. apply (StronglySorted_unique String.le);
    auto using sorted_StronglySorted.
  by rewrite !sorted_Permutation.
Qed.

(** The dict comprehension over [enumerate]: index [start + i] is bound
    to the [i]-th item, other keys are as before. *)
Lemma comprehension_lookup (xs : list string) start d z :
  foldl (λ d '(i, cls), <[i := cls]> d) d (enumerate_from start xs) !! z =
  if decide (start ≤ z < start + Z.of_nat (length xs))%Z
  then xs !! Z.to_nat (z - start)
  else d !! z.
Proof.
  revert start d. induction xs as [|x xs IH]; intros start d; cbn [enumerate_from foldl length].
  - case_decide; [lia | done].
  - rewrite IH. repeat case_decide; try lia.
    + replace (Z.to_nat (z - start)) with (S (Z.to_nat (z - (start + 1)))) by lia.
      done.
    + assert (z = start) as -> by lia.
      rewrite lookup_insert_eq. by replace (Z.to_nat (start - start)) with 0 by lia.
    + apply lookup_insert_ne. lia.
Qed.

Lemma int_to_class_lookup crop_info z :
  int_to_class crop_info !! z =
  if decide (0 ≤ z < Z.of_nat (length (dict_keys crop_info)))%Z
  then alphabetical_classes crop_info !! Z.to_nat z
  else None.
Proof.
  unfold int_to_class, enumerate. rewrite comprehension_lookup.
  unfold alphabetical_classes. rewrite sorted_length, Z.sub_0_r, lookup_empty.
  repeat case_decide; done || lia.
Qed.

Lemma int_to_class_is_Some crop_info z :
  is_Some (int_to_class crop_info !! z) ↔
  (0 ≤ z < Z.of_nat (length (dict_keys crop_info)))%Z.
Proof.
  rewrite int_to_class_lookup. case_decide as Hz.
  - split; [done|]. intros _. apply lookup_lt_is_Some.
    unfold alphabetical_classes. rewrite sorted_length. lia.
  - split; [by intros [? ?] | done].
Qed.

(** C3: the fallback mapping sends index [i] to the [i]-th class name in
    alphabetical order, for every [i] below the number of classes; it is
    defined on exactly those indices, reaches every class name, is
    injective, and depends only on the set of names, not on the order in
    which the catalog lists them. *)
Theorem int_to_class_alphabetical (crop_info : pydict string) :
  NoDup (dict_keys crop_info) →
  StronglySorted String.le (sorted (dict_keys crop_info)) ∧
  sorted (dict_keys crop_info) ≡ₚ dict_keys crop_info ∧
  (∀ i, i < length (dict_keys crop_info) →
        is_Some (sorted (dict_keys crop_info) !! i) ∧
        int_to_class crop_info !! Z.of_nat i =
        sorted (dict_keys crop_info) !! i) ∧
  (∀ z, is_Some (int_to_class crop_info !! z) ↔
        (0 ≤ z < Z.of_nat (length (dict_keys crop_info)))%Z) ∧
  (∀ cls, cls ∈ dict_keys crop_info →
          ∃ z, int_to_class crop_info !! z = Some cls) ∧
  (∀ i j cls, int_to_class crop_info !! i = Some cls →
              int_to_class crop_info !! j = Some cls → i = j) ∧
  (∀ crop_info' : pydict string,
     dict_keys crop_info' ≡ₚ dict_keys crop_info →
     int_to_class crop_info' = int_to_class crop_info).
Proof.
  intros Hnodup. split_and!.
  - apply sorted_StronglySorted.
  - apply sorted_Permutation.
  - intros i Hi. split.
    + apply lookup_lt_is_Some. by rewrite sorted_length.
    + rewrite int_to_class_lookup, decide_True by lia.
      by rewrite Nat2Z.id.
  - apply int_to_class_is_Some.
  - intros cls Hcls. rewrite <- (sorted_Permutation (dict_keys crop_info)) in Hcls.
    apply list_elem_of_lookup in Hcls as [i Hi].
    exists (Z.of_nat i). rewrite int_to_class_lookup, decide_True, Nat2Z.id; [done|].
    apply lookup_lt_Some in Hi. rewrite sorted_length in Hi. lia.
  - intros i j cls Hi Hj.
    assert (is_Some (int_to_class crop_info !! i)) as Hi' by eauto.
    assert (is_Some (int_to_class crop_info !! j)) as Hj' by eauto.
    apply int_to_class_is_Some in Hi', Hj'.
    rewrite int_to_class_lookup, decide_True in Hi by done.
    rewrite int_to_class_lookup, decide_True in Hj by done.
    assert (NoDup (alphabetical_classes crop_info)) as Hnd.
    { unfold alphabetical_classes. by rewrite sorted_Permutation. }
    pose proof (NoDup_lookup _ _ _ _ Hnd Hi Hj). lia.
  - intros crop_info' Hp. unfold int_to_class, alphabetical_classes.
    by rewrite (sorted_order_independent _ _ Hp).
Qed.
End Mapping.

(** ** Ranking *)

Section Loops.
Context {F A B : Type}.
Implicit Types (f : A → Py F B) (xs : list A).

(** A loop whose body succeeds on every element succeeds, and relates
    each element to the item appended for it. *)
Lemma for_each_ok f (P : A → B → Prop) xs log :
  (∀ x log0, x ∈ xs → ∃ y log1, f x log0 = (Ok y, log1) ∧ P x y) →
  ∃ ys log', for_each f xs log = (Ok ys, log') ∧ Forall2 P xs ys.
Proof.
  revert log. induction xs as [|x xs IH]; intros log Hbody.
  - exists [], log. by split; [|constructor].
  - destruct (Hbody x log) as (y & log1 & Hy & HP); [by left|].
    destruct (IH log1) as (ys & log2 & Hys & HPs).
    { intros x' log0 Hx'. apply Hbody. by right. }
    exists (y :: ys), log2. cbn. unfold bind at 1. rewrite Hy.
    unfold bind at 1. rewrite Hys. by split; [|constructor].
Qed.

(** Whatever every run of the body guarantees of its item holds of all
    the items a finished loop collected. *)
Lemma for_each_Forall f (P : B → Prop) xs log ys log' :
  (∀ x log0 y log1, f x log0 = (Ok y, log1) → P y) →
  for_each f xs log = (Ok ys, log') → Forall P ys.
Proof.
  intros Hbody. revert log ys. induction xs as [|x xs IH]; intros log ys; cbn.
  - intros [= <- _]. constructor.
  - unfold bind at 1. destruct (f x log) as [[y|e] log1] eqn:Hy; [|done].
    unfold bind at 1.
    destruct (for_each f xs log1) as [[ys'|e] log2] eqn:Hys; [|done].
    intros [= <- <-]. constructor; [by eapply Hbody | by eapply IH].
Qed.
End Loops.

Section Sorting.
Lemma slice_to_nonneg {A} (k : Z) (xs : list A) :
  (0 ≤ k)%Z → slice_to k xs = take (Z.to_nat k) xs.
Proof. intros Hk. unfold slice_to. by rewrite (proj2 (Z.leb_le 0 k)). Qed.

Lemma StronglySorted_reverse {A} (R : relation A) l :
  StronglySorted R l → StronglySorted (flip R) (reverse l).
Proof.
  induction 1 as [|x l Hl IH Hx]; [constructor|].
  rewrite reverse_cons. apply StronglySorted_app_2.
  - intros x1 x2 Hx1 ->%list_elem_of_singleton.
    rewrite elem_of_reverse in Hx1.
    rewrite Forall_forall in Hx. unfold flip. by apply Hx.
  - exact IH.
  - repeat constructor.
Qed.

Lemma StronglySorted_take {A} (R : relation A) n l :
  StronglySorted R l → StronglySorted R (take n l).
Proof.
  intros Hl. rewrite <- (take_drop n l) in Hl.
  by apply StronglySorted_app_1_l in Hl.
Qed.

(** Sortedness carries over from the indices to the items built from
    them. *)
Lemma StronglySorted_Forall2 {A B} (R : relation A) (S : relation B)
    (P : A → B → Prop) xs ys :
  (∀ x x' y y', P x y → P x' y' → R x x' → S y y') →
  Forall2 P xs ys → StronglySorted R xs → StronglySorted S ys.
Proof.
  intros HRS HP. induction HP as [|x y xs ys Hxy HP IH]; [constructor|].
  intros [Hx Hxs]%StronglySorted_cons. constructor; [by apply IH|].
  clear IH Hxs. induction HP as [|x' y' xs ys Hxy' HP IH]; [constructor|].
  apply Forall_cons in Hx as [Hx Hxs]. constructor; eauto.
Qed.

Lemma Qltb_lt x y : Qltb x y = true ↔ (x < y)%Q.
Proof.
  unfold Qltb. rewrite negb_true_iff, <- not_true_iff_false, Qle_bool_iff.
  split; [apply Qnot_le_lt | apply Qlt_not_le].
Qed.

Lemma insert_index_Permutation v i idx : insert_index v i idx ≡ₚ i :: idx.
Proof.
  induction idx as [|j idx IH]; cbn; [done|].
  destruct (Qltb _ _); [done|]. by rewrite IH, Permutation_swap.
Qed.

Lemma insert_index_StronglySorted v i idx :
  StronglySorted (λ a b, (prob_at v a <= prob_at v b)%Q) idx →
  StronglySorted (λ a b, (prob_at v a <= prob_at v b)%Q) (insert_index v i idx).
Proof.
  induction 1 as [|j idx Hidx IH Hj]; cbn; [by repeat constructor|].
  destruct (Qltb (prob_at v i) (prob_at v j)) eqn:Hlt.
  - apply Qltb_lt, Qlt_le_weak in Hlt.
    constructor; [by constructor|]. constructor; [done|].
    eapply Forall_impl; [exact Hj|]. intros k Hk. cbn in Hk. by eapply Qle_trans.
  - apply not_true_iff_false in Hlt. rewrite Qltb_lt in Hlt.
    apply Qnot_lt_le in Hlt. constructor; [done|].
    rewrite insert_index_Permutation. by constructor.
Qed.

Lemma insert_all_sorted v l acc :
  StronglySorted (λ a b, (prob_at v a <= prob_at v b)%Q) acc →
  foldl (λ idx i, insert_index v i idx) acc l ≡ₚ acc ++ l ∧
  StronglySorted (λ a b, (prob_at v a <= prob_at v b)%Q)
                 (foldl (λ idx i, insert_index v i idx) acc l).
Proof.
  revert acc. induction l as [|i l IH]; intros acc Hacc; cbn [foldl].
  - by rewrite app_nil_r.
  - destruct (IH (insert_index v i acc)) as [Hp Hs].
    { by apply insert_index_StronglySorted. }
    split; [|done]. rewrite Hp, insert_index_Permutation.
    by rewrite <- Permutation_middle.
Qed.

Lemma insertion_argsort_spec : argsort_spec insertion_argsort.
Proof.
  intros v. unfold insertion_argsort.
  apply (insert_all_sorted v (seq 0 (length v)) []). constructor.
Qed.
End Sorting.

Section Ranking.
Context {float64 : Type}.
Variable lower : string → string.
Variable str_container : pyval → string.
Variable argsort : list Q → list nat.
Variable model : classifier (list float64).
Variable crop_info : pydict string.
Variable label_encoder : option (Z → res pyval).

Local Abbreviation map_class_label :=
  (map_class_label (float64 := float64) str_container crop_info label_encoder).
Local Abbreviation top_k_predictions :=
  (top_k_predictions lower str_container argsort model crop_info label_encoder).

(** The label [map_class_label] returns does not depend on the calls
    made before it. *)
Lemma map_class_label_log_irrelevant v log log0 :
  (map_class_label v log).1 = (map_class_label v log0).1.
Proof.
  destruct (is_integer v) eqn:Hint.
  - rewrite !map_class_label_integer_outcome by done.
    unfold integer_outcome. destruct label_encoder as [it|]; [|done].
    by destruct (it (py_int v)).
  - by rewrite !map_class_label_other.
Qed.

(** Where the index list comes from. *)
Lemma ranked_indices_bound (probs : list Q) n idx :
  argsort_spec argsort →
  idx ∈ take n (reverse (argsort probs)) → idx < length probs.
Proof.
  intros Hspec Hidx. apply subseteq_take in Hidx.
  rewrite elem_of_reverse in Hidx.
  destruct (Hspec probs) as [Hperm _]. rewrite Hperm in Hidx.
  apply elem_of_seq in Hidx. lia.
Qed.

Lemma ranked_indices_sorted (probs : list Q) n :
  argsort_spec argsort →
  StronglySorted (λ i j, (prob_at probs j <= prob_at probs i)%Q)
                 (take n (reverse (argsort probs))).
Proof.
  intros Hspec. destruct (Hspec probs) as [_ Hsorted].
  apply StronglySorted_take.
  by apply (StronglySorted_reverse (λ i j, (prob_at probs i <= prob_at probs j)%Q)).
Qed.

(** C2, as the code has it: when the classifier offers probabilities for
    [n] classes and [k >= 1], [top_k_predictions] returns [min(k, n)]
    entries in descending order of probability; the entry at rank [r] is
    the class at index [argsort(probs)[::-1][r]], so entries of equal
    probability come in the reverse of the order [np.argsort] left
    them in. *)
Theorem top_k_predictions_ranked features k predict_proba probs rest classes log :
  argsort_spec argsort →
  model_predict_proba model = Some predict_proba →
  predict_proba features = Ok (probs :: rest) →
  model_classes_ model = Some classes →
  length classes = length probs →
  (1 ≤ k)%Z →
  ∃ results log',
    top_k_predictions features k log = (Ok (Some results), log') ∧
    length results = Z.to_nat k `min` length probs ∧
    StronglySorted by_probability_descending results ∧
    Forall2
      (λ idx entry,
         probability entry = prob_at probs idx ∧
         ∃ cls, classes !! idx = Some cls ∧
                (map_class_label cls []).1 = Ok (label entry))
      (take (Z.to_nat k) (reverse (argsort probs))) results.
Proof.
  intros Hspec Hproba Hrun Hclasses Hlen Hk.
  unfold top_k_predictions. rewrite Hproba, Hclasses.
  unfold bind at 1, external at 1. rewrite Hrun.
  unfold bind at 1, lift at 1. cbn [seq_getitem lookup list_lookup].
  rewrite slice_to_nonneg by lia.
  set (indices := take (Z.to_nat k) (reverse (argsort probs))).
  set (body := λ idx : nat, _).
  destruct (for_each_ok body
              (λ idx entry,
                 probability entry = prob_at probs idx ∧
                 ∃ cls, classes !! idx = Some cls ∧
                        (map_class_label cls []).1 = Ok (label entry))
              indices (log ++ [CallPredictProba features]))
    as (results & log' & Hloop & Hrel).
  { intros idx log0 Hidx. apply (ranked_indices_bound _ _ _ Hspec) in Hidx.
    destruct (lookup_lt_is_Some_2 classes idx) as [cls Hcls]; [lia|].
    destruct (lookup_lt_is_Some_2 probs idx) as [p Hp]; [done|].
    destruct (map_class_label_ok str_container crop_info label_encoder
                cls log0) as (name & log1 & Hname).
    exists (Ranked name p (dict_get crop_info (lower name) no_information)), log1.
    split.
    - unfold body, bind, lift, seq_getitem. by rewrite Hcls, Hname, Hp.
    - split; [unfold prob_at; by rewrite Hp|].
      exists cls. split; [done|].
      by rewrite (map_class_label_log_irrelevant cls [] log0), Hname. }
  exists results, log'. unfold bind at 1. rewrite Hloop. split_and!; [done| |..|done].
  - rewrite <- (Forall2_length _ _ _ Hrel). unfold indices.
    rewrite length_take, length_reverse.
    destruct (Hspec probs) as [Hperm _]. by rewrite Hperm, length_seq.
  - eapply StronglySorted_Forall2;
      [|exact Hrel|exact (ranked_indices_sorted probs (Z.to_nat k) Hspec)].
    intros i j a b [Ha _] [Hb _] Hij. unfold by_probability_descending.
    by rewrite Ha, Hb.
Qed.
End Ranking.

(** ** The request handler *)

Section Monad_inversion.
Context {F A B : Type}.

Lemma bind_Ok_inv (m : Py F A) (k : A → Py F B) log b log' :
  bind m k log = (Ok b, log') →
  ∃ a log1, m log = (Ok a, log1) ∧ k a log1 = (Ok b, log').
Proof.
  unfold bind. destruct (m log) as [[a|e] log1]; [eauto | done].
Qed.

Lemma try_except_inv (m : Py F A) (h : exn → Py F A) log r log' :
  try_except m h log = (r, log') →
  (∃ a, m log = (Ok a, log') ∧ r = Ok a) ∨
  (∃ e log1, m log = (Raise e, log1) ∧ h e log1 = (r, log')).
Proof.
  unfold try_except. destruct (m log) as [[a|e] log1]; [|by eauto].
  intros [= <- <-]. eauto.
Qed.
End Monad_inversion.

Section Validation.
Implicit Types (data : gmap string json) (keys : list string).

(** The validation loop stops at the first key, in the order of
    [keys], that the request lacks. *)
Lemma first_missing_first data keys :
  (∃ key, key ∈ keys ∧ data !! key = None) →
  ∃ n key,
    keys !! n = Some key ∧ data !! key = None ∧
    (∀ m key', m < n → keys !! m = Some key' → is_Some (data !! key')) ∧
    first_missing data keys = Some key.
Proof.
  induction keys as [|key0 keys IH]; intros (key & Hin & Hnone).
  - by apply elem_of_nil in Hin.
  - cbn [first_missing]. case_decide as Hkey0.
    + exists 0, key0. split_and!; [done..| |done]. intros; lia.
    + destruct IH as (n & key1 & Hn & Hnone1 & Hbefore & Hfirst).
      { exists key. split; [|done].
        apply elem_of_cons in Hin as [->|]; [done|done]. }
      exists (S n), key1. split_and!; [done..| |done].
      intros [|m] key' Hm Hkey'.
      * injection Hkey' as <-. by destruct (data !! key0).
      * apply (Hbefore m); [lia|done].
Qed.

Lemma first_missing_None data keys :
  first_missing data keys = None ↔ ∀ key, key ∈ keys → is_Some (data !! key).
Proof.
  induction keys as [|key0 keys IH]; cbn [first_missing].
  - split; [|done]. by intros _ key ?%elem_of_nil.
  - case_decide as Hkey0.
    + split; [done|]. intros Hall.
      destruct (Hall key0) as [v Hv]; [by left|congruence].
    + rewrite IH. split.
      * intros Hall key [->|Hin]%elem_of_cons; [|by apply Hall].
        by destruct (data !! key0).
      * intros Hall key Hin. apply Hall. by right.
Qed.
End Validation.

Section Handler.
Context {float64 : Type}.
Variable lower : string → string.
Variable py_float : json → res float64.
Variable str_container : pyval → string.
Variable argsort : list Q → list nat.
Variable model : classifier (list float64).
Variable crop_info : pydict string.
Variable label_encoder : option (Z → res pyval).

Local Abbreviation F := (list float64).
Local Abbreviation to_crop_name :=
  (to_crop_name (float64 := float64) str_container crop_info label_encoder).
Local Abbreviation top_k_predictions :=
  (top_k_predictions lower str_container argsort model crop_info label_encoder).
Local Abbreviation predict_features :=
  (predict_features lower str_container argsort model crop_info label_encoder).
Local Abbreviation predict :=
  (predict lower py_float str_container argsort model crop_info label_encoder).

Lemma predict_validated data features log :
  first_missing data required = None →
  float_fields py_float data required = Ok features →
  predict (Some (JObject data)) log =
  try_except (predict_features features)
             (λ e, ret (Response (ErrorBody (exn_str e)) 500)) log.
Proof.
  intros Hmissing Hfields. unfold predict. rewrite Hmissing.
  unfold required in Hfields. cbn [float_fields] in Hfields.
  repeat match type of Hfields with
         | context [float_field ?f ?d ?k] =>
             destruct (float_field f d k) eqn:?; [|discriminate Hfields]
         end.
  injection Hfields as <-. reflexivity.
Qed.

(** A field that [float()] rejects is answered with status 500, before
    the classifier is called. *)
Lemma predict_conversion_error data e log :
  first_missing data required = None →
  float_fields py_float data required = Raise e →
  predict (Some (JObject data)) log =
  (Ok (Response (ErrorBody (exn_str e)) 500), log).
Proof.
  intros Hmissing Hfields. unfold predict. rewrite Hmissing.
  unfold required in Hfields. cbn [float_fields] in Hfields.
  repeat match type of Hfields with
         | context [float_field ?f ?d ?k] =>
             destruct (float_field f d k) eqn:?;
             [|injection Hfields as <-; reflexivity]
         end.
  discriminate Hfields.
Qed.

(** Which results of [top_k_predictions] are [None]. *)
Lemma top_k_predictions_None features k log :
  (top_k_predictions features k log).1 = Ok None ↔
  model_predict_proba model = None ∨
  (model_classes_ model = None ∧
   ∃ predict_proba proba,
     model_predict_proba model = Some predict_proba ∧
     predict_proba features = Ok proba).
Proof.
  unfold top_k_predictions.
  destruct (model_predict_proba model) as [pp|]; [|by split; [left|]].
  unfold bind at 1, external at 1.
  destruct (pp features) as [proba|e] eqn:Hpp.
  - destruct (model_classes_ model) as [classes|].
    + split; [|by intros [|[? _]]].
      unfold bind at 1, lift at 1. destruct (seq_getitem proba 0); [|done].
      unfold bind at 1. by destruct (for_each _ _ _) as [[?|?] ?].
    + split; [|done]. intros _. right. split; [done|]. by exists pp, proba.
  - split; [done|]. intros [|(_ & pp' & proba & [= <-] & Hrun)]; [done|].
    congruence.
Qed.

Lemma top_k_predictions_None_run features k log :
  (top_k_predictions features k log).1 = Ok None →
  ∃ log', top_k_predictions features k log = (Ok None, log').
Proof.
  destruct (top_k_predictions features k log) as [r log'] eqn:Hrun.
  cbn. intros ->. eauto.
Qed.

Lemma top_k_predictions_log_irrelevant features k log log0 :
  (top_k_predictions features k log).1 = Ok None →
  (top_k_predictions features k log0).1 = Ok None.
Proof. by rewrite !top_k_predictions_None. Qed.

(** Lowercasing forgets the capitalisation. *)
Lemma same_letter_lower c d :
  same_letter c d = true → lower_ascii c = lower_ascii d.
Proof.
  unfold same_letter. intros Heq%Ascii.eqb_eq.
  assert (∀ a, lower_ascii (upper_ascii a) = lower_ascii a) as Hup.
  { by intros [[] [] [] [] [] [] [] []]. }
  by rewrite <- (Hup c), <- (Hup d), Heq.
Qed.

Lemma recapitalized_lower s t :
  recapitalized s t = true → str_lower s = str_lower t.
Proof.
  revert t. induction s as [|c s IH]; intros [|d t]; cbn; try done.
  intros [Hcd Hst]%andb_true_iff.
  by rewrite (same_letter_lower c d), (IH t).
Qed.

Lemma top_k_predictions_info features k log results log' :
  top_k_predictions features k log = (Ok (Some results), log') →
  Forall (λ entry,
            info entry =
            dict_get crop_info (lower (label entry)) no_information)
         results.
Proof.
  unfold top_k_predictions.
  destruct (model_predict_proba model) as [pp|]; [|done].
  intros (proba & log1 & _ & Hrest)%bind_Ok_inv.
  destruct (model_classes_ model) as [classes|]; [|done].
  apply bind_Ok_inv in Hrest as (probs & log2 & _ & Hrest).
  apply bind_Ok_inv in Hrest as (entries & log3 & Hloop & [= <- _]).
  eapply for_each_Forall; [|exact Hloop].
  intros idx log4 entry log5 Hbody. cbn beta in Hbody.
  apply bind_Ok_inv in Hbody as (cls & ? & _ & Hbody).
  apply bind_Ok_inv in Hbody as (name & ? & _ & Hbody).
  apply bind_Ok_inv in Hbody as (p & ? & _ & [= <- _]).
  reflexivity.
Qed.

Lemma predict_info data log prediction description top_3 status log' :
  predict data log =
  (Ok (Response (PredictionBody prediction description top_3) status), log') →
  description = dict_get crop_info (lower prediction) no_information.
Proof.
  unfold predict.
  destruct data as [[| | | | |data]|]; try done.
  intros [(resp & Hbody & [= <-]) | (e & log1 & _ & [=])]%try_except_inv.
  destruct (first_missing data required); [done|].
  repeat (apply bind_Ok_inv in Hbody as (? & ? & _ & Hbody)).
  by injection Hbody as <- <- _ _ _.
Qed.

(** C7: a JSON-object body that lacks one of the seven required fields
    is answered with status 400 and the error [Missing field: key],
    where [key] is the first required field, in the order of
    [required], that the body lacks; the call log is unchanged, so the
    classifier is not invoked. *)
Theorem predict_missing_field data log :
  (∃ key, key ∈ required ∧ data !! key = None) →
  ∃ n key,
    required !! n = Some key ∧ data !! key = None ∧
    (∀ m key', m < n → required !! m = Some key' →
               is_Some (data !! key')) ∧
    predict (Some (JObject data)) log =
    (Ok (Response (ErrorBody ("Missing field: " ++ key)) 400), log).
Proof.
  intros Hmissing.
  destruct (first_missing_first data required Hmissing)
    as (n & key & Hn & Hkey & Hbefore & Hfirst).
  exists n, key. split_and!; [done..|].
  unfold predict. by rewrite Hfirst.
Qed.

(** C5, as the code has it: [top_k_predictions] returns [None] exactly
    when the classifier has no [predict_proba], or has one whose call
    returns and has no [classes_]; no exception is raised then, and a
    [/predict] request that is otherwise served gets status 200 with the
    [top_3] field left out. *)
Theorem top_k_predictions_unavailable features k log :
  ((top_k_predictions features k log).1 = Ok None ↔
   model_predict_proba model = None ∨
   (model_classes_ model = None ∧
    ∃ predict_proba proba,
      model_predict_proba model = Some predict_proba ∧
      predict_proba features = Ok proba)) ∧
  (∀ data log0 first rest,
     (top_k_predictions features 3 log).1 = Ok None →
     first_missing data required = None →
     float_fields py_float data required = Ok features →
     model_predict model features = Ok (first :: rest) →
     (∀ item, first ≠ NdArray0 item) →
     ∃ label_str log1,
       predict (Some (JObject data)) log0 =
       (Ok (Response
              (PredictionBody
                 label_str
                 (dict_get crop_info (lower label_str) no_information)
                 None)
              200),
        log1)).
Proof.
  split; [apply top_k_predictions_None|].
  intros data log0 first rest Hnone Hmissing Hfields Hpredict Hfirst.
  rewrite (predict_validated _ _ _ Hmissing Hfields).
  destruct (to_crop_name_ok str_container crop_info label_encoder first
              (log0 ++ [CallPredict features]) Hfirst)
    as (label_str & log1 & Hlabel).
  destruct (top_k_predictions_None_run features 3 log1) as [log2 Htop].
  { by apply (top_k_predictions_log_irrelevant features 3 log). }
  exists label_str, log2.
  unfold try_except, predict_features.
  unfold bind at 1, external at 1. rewrite Hpredict.
  unfold bind at 1, lift at 1. cbn [seq_getitem lookup list_lookup].
  unfold bind at 1. rewrite Hlabel.
  unfold bind at 1. by rewrite Htop.
Qed.
End Handler.

(** ** Worked instances *)

Section Instances.
Local Abbreviation resolve := (to_crop_name (float64 := Q) sample_str_container).
Local Abbreviation rank :=
  (top_k_predictions (float64 := Q) str_lower sample_str_container
     insertion_argsort).
Local Abbreviation handle :=
  (predict str_lower sample_float sample_str_container insertion_argsort).

(** The ranking example of the specification: probabilities 0.1, 0.7 and
    0.2 for rice, maize and jute, and [k = 2]. *)
Example rank_sample :
  rank sample_model sample_crop_info None [] 2 [] =
  (Ok (Some [Ranked "maize" (7 # 10) no_information;
             Ranked "jute" (2 # 10) no_information]),
   [CallPredictProba []]).
Proof. reflexivity. Qed.

(** The end-to-end scenario: the classifier predicts the integer 0, no
    encoder is present, and the catalog knows banana, rice and wheat. *)
Example handle_sample :
  handle sample_model sample_crop_info None (Some (JObject sample_request)) [] =
  (Ok (Response
         (PredictionBody
            "banana" "Banana needs a warm climate."
            (Some [Ranked "maize" (7 # 10) no_information;
                   Ranked "jute" (2 # 10) no_information;
                   Ranked "rice" (1 # 10) "Rice needs standing water."]))
         200),
   [CallPredict (replicate 7 50%Q); CallPredictProba (replicate 7 50%Q)]).
Proof. vm_compute. reflexivity. Qed.

(** A prediction array holding a 0-dimensional array: the handler
    answers 500 with the [TypeError] of [to_crop_name]. *)
Example handle_unsized_prediction :
  handle (Classifier (λ _, Ok [NdArray0 (NpInteger 0)]) None None)
         sample_crop_info None (Some (JObject sample_request)) [] =
  (Ok (Response (ErrorBody "len() of unsized object") 500),
   [CallPredict (replicate 7 50%Q)]).
Proof. vm_compute. reflexivity. Qed.

Lemma top_k_predictions_ranked_witness :
  ∃ results log',
    rank sample_model sample_crop_info None [] 2 [] = (Ok (Some results), log') ∧
    length results = 2 ∧
    StronglySorted by_probability_descending results ∧
    Forall2
      (λ idx entry,
         probability entry = prob_at [1 # 10; 7 # 10; 2 # 10]%Q idx ∧
         ∃ cls, [PyStr "rice"; PyStr "maize"; PyStr "jute"] !! idx = Some cls ∧
                (map_class_label (float64 := Q) sample_str_container
                   sample_crop_info None cls []).1 = Ok (label entry))
      [1; 2] results.
Proof.
  apply (top_k_predictions_ranked str_lower
           sample_str_container insertion_argsort sample_model
           sample_crop_info None [] 2 (λ _, Ok [[1 # 10; 7 # 10; 2 # 10]%Q])
           [1 # 10; 7 # 10; 2 # 10]%Q [] [PyStr "rice"; PyStr "maize"; PyStr "jute"] []).
  - apply insertion_argsort_spec.
  - reflexivity.
  - reflexivity.
  - reflexivity.
  - reflexivity.
  - lia.
Defined.

(** C2 as stated fails on a tie: with an order-preserving [argsort] two
    classes of equal probability are ranked with the later class of the
    class order first. *)
Lemma top_k_predictions_tie_counterexample :
  rank tie_model sample_crop_info None [] 2 [] =
  (Ok (Some [Ranked "maize" (1 # 2) no_information;
             Ranked "rice" (1 # 2) "Rice needs standing water."]),
   [CallPredictProba []]) ∧
  ¬ first_seen_wins
      ["rice"; "maize"]
      [Ranked "maize" (1 # 2) no_information;
       Ranked "rice" (1 # 2) "Rice needs standing water."].
Proof.
  split; [reflexivity|]. intros Hfirst.
  destruct (Hfirst 0 1 (Ranked "maize" (1 # 2) no_information)
              (Ranked "rice" (1 # 2) "Rice needs standing water."))
    as (ia & ib & Ha & Hb & Hlt); [lia|done|done|done|].
  destruct ib as [|[|[|ib]]]; try discriminate Hb.
  destruct ia as [|[|[|ia]]]; try discriminate Ha. lia.
Qed.

Lemma int_to_class_alphabetical_witness :
  int_to_class sample_crop_info !! 0%Z = Some "banana" ∧
  int_to_class sample_crop_info !! 1%Z = Some "rice" ∧
  int_to_class sample_crop_info !! 2%Z = Some "wheat" ∧
  int_to_class (reverse sample_crop_info) = int_to_class sample_crop_info.
Proof.
  assert (NoDup (dict_keys sample_crop_info)) as Hnodup by compute_done.
  destruct (int_to_class_alphabetical sample_crop_info Hnodup)
    as (_ & _ & Hindex & _ & _ & _ & Horder).
  split_and!.
  - destruct (Hindex 0) as [_ Hzero]; [cbn; lia | exact Hzero].
  - destruct (Hindex 1) as [_ Hone]; [cbn; lia | exact Hone].
  - destruct (Hindex 2) as [_ Htwo]; [cbn; lia | exact Htwo].
  - apply Horder. unfold dict_keys. by rewrite fmap_reverse, reverse_Permutation.
Defined.

Lemma to_crop_name_integer_fallbacks_witness :
  resolve sample_crop_info (Some sample_encoder) (NpInteger 0) [] =
  (Ok "Rice", [CallInverseTransform 0]) ∧
  (resolve sample_crop_info None (NpInteger 1) []).1 = Ok "rice" ∧
  (resolve sample_crop_info (Some sample_encoder) (PyInt 7) []).1 = Ok "7".
Proof.
  split_and!.
  - destruct (to_crop_name_integer_fallbacks (float64 := Q)
                sample_str_container sample_crop_info (Some sample_encoder)
                (NpInteger 0) [] eq_refl) as [Hdecoded _].
    exact (Hdecoded sample_encoder (NpStr "Rice") eq_refl eq_refl).
  - destruct (to_crop_name_integer_fallbacks (float64 := Q)
                sample_str_container sample_crop_info None
                (NpInteger 1) [] eq_refl) as [_ Hfallback].
    destruct (Hfallback (or_introl eq_refl)) as [Hentry _].
    exact (Hentry "rice" eq_refl).
  - destruct (to_crop_name_integer_fallbacks (float64 := Q)
                sample_str_container sample_crop_info (Some sample_encoder)
                (PyInt 7) [] eq_refl) as [_ Hfallback].
    destruct Hfallback as [_ Hraw].
    { right. by exists sample_encoder, (ValueError "y contains previously unseen labels"). }
    exact (Hraw eq_refl).
Defined.

Lemma map_class_label_agrees_with_to_crop_name_witness :
  map_class_label (float64 := Q) sample_str_container sample_crop_info None
                  (NpInteger 2) [] =
  resolve sample_crop_info None (NpInteger 2) [].
Proof.
  apply (map_class_label_agrees_with_to_crop_name
           sample_str_container sample_crop_info None (NpInteger 2) []).
  reflexivity.
Defined.

Lemma to_crop_name_keeps_container_witness :
  resolve sample_crop_info None (NdArray [NpInteger 0; NpInteger 1]) [] =
  (Ok (sample_str_container (NdArray [NpInteger 0; NpInteger 1])), []).
Proof.
  apply (to_crop_name_keeps_container
           sample_str_container sample_crop_info None
           (NdArray [NpInteger 0; NpInteger 1]) 2 []).
  - reflexivity.
  - reflexivity.
  - lia.
Defined.

(** C5 as stated fails on a classifier without [classes_] whose
    [predict_proba] raises: the exception leaves [top_k_predictions]
    instead of [None]. *)
Lemma top_k_predictions_unfitted_counterexample :
  ¬ ((rank unfitted_model sample_crop_info None [] 3 []).1 = Ok None ↔
     model_predict_proba unfitted_model = None ∨
     model_classes_ unfitted_model = None).
Proof. intros [_ Hnone]. by specialize (Hnone (or_intror eq_refl)). Qed.

Example handle_unfitted :
  handle unfitted_model sample_crop_info None (Some (JObject sample_request)) [] =
  (Ok (Response (ErrorBody "This instance is not fitted yet.") 500),
   [CallPredict (replicate 7 50%Q); CallPredictProba (replicate 7 50%Q)]).
Proof. vm_compute. reflexivity. Qed.

Lemma top_k_predictions_unavailable_witness :
  (rank plain_model sample_crop_info None (replicate 7 50%Q) 3 []).1 = Ok None ∧
  ∃ label_str log1,
    handle plain_model sample_crop_info None (Some (JObject sample_request)) [] =
    (Ok (Response
           (PredictionBody
              label_str
              (dict_get sample_crop_info (str_lower label_str) no_information)
              None)
           200),
     log1).
Proof.
  destruct (top_k_predictions_unavailable str_lower
              sample_float sample_str_container insertion_argsort plain_model
              sample_crop_info None (replicate 7 50%Q) 3 [])
    as [Hiff Hresponse].
  assert ((rank plain_model sample_crop_info None (replicate 7 50%Q) 3 []).1
          = Ok None) as Hnone by (apply Hiff; by left).
  split; [exact Hnone|].
  apply (Hresponse sample_request [] (PyStr "Rice") []); try done.
Defined.

Lemma predict_missing_field_witness :
  handle sample_model sample_crop_info None (Some (JObject short_request)) [] =
  (Ok (Response (ErrorBody "Missing field: humidity") 400), []).
Proof.
  destruct (predict_missing_field str_lower
              sample_float sample_str_container insertion_argsort sample_model
              sample_crop_info None short_request [])
    as (n & key & Hn & Hkey & Hbefore & Hrun).
  - exists "rainfall". split; [|reflexivity]. compute_done.
  - destruct n as [|[|[|[|[|[|[|n]]]]]]]; try discriminate Hn;
      injection Hn as <-; try discriminate Hkey; [exact Hrun|].
    by destruct (Hbefore 4 "humidity"); [lia|..].
Defined.
End Instances.


(** ** The call log *)

Section Calls.
Context {float64 : Type}.
Variable lower : string → string.
Variable py_float : json → res float64.
Variable str_container : pyval → string.
Variable argsort : list Q → list nat.
Variable model : classifier (list float64).
Variable crop_info : pydict string.
Variable label_encoder : option (Z → res pyval).

Local Abbreviation F := (list float64).
Local Abbreviation to_crop_name :=
  (to_crop_name (float64 := float64) str_container crop_info label_encoder).
Local Abbreviation map_class_label :=
  (map_class_label (float64 := float64) str_container crop_info label_encoder).
Local Abbreviation top_k_predictions :=
  (top_k_predictions lower str_container argsort model crop_info label_encoder).
Local Abbreviation predict_features :=
  (predict_features lower str_container argsort model crop_info label_encoder).
Local Abbreviation predict :=
  (predict lower py_float str_container argsort model crop_info label_encoder).

Lemma encoder_only_ret {A} (a : A) : encoder_only (F := F) (ret a).
Proof. intros log. exists (Ok a), []. by rewrite app_nil_r. Qed.

Lemma encoder_only_lift {A} (r : res A) : encoder_only (F := F) (lift r).
Proof. intros log. exists r, []. by rewrite app_nil_r. Qed.

Lemma encoder_only_bind {A B} (m : Py F A) (k : A → Py F B) :
  encoder_only m → (∀ a, encoder_only (k a)) → encoder_only (bind m k).
Proof.
  intros Hm Hk log. destruct (Hm log) as (r & calls & Hrun & Hcalls).
  unfold bind. rewrite Hrun. destruct r as [a|e]; [|by eauto].
  destruct (Hk a (log ++ calls)) as (r' & calls' & Hrun' & Hcalls').
  exists r', (calls ++ calls'). rewrite Hrun', app_assoc. split; [done|].
  by rewrite filter_app, Hcalls, Hcalls'.
Qed.

Lemma encoder_only_for_each {A B} (f : A → Py F B) xs :
  (∀ x, encoder_only (f x)) → encoder_only (for_each f xs).
Proof.
  intros Hf. induction xs as [|x xs IH]; cbn [for_each].
  - apply encoder_only_ret.
  - apply encoder_only_bind; [done|]. intros y.
    apply encoder_only_bind; [done|]. intros ys. apply encoder_only_ret.
Qed.

Lemma encoder_only_integer_outcome v :
  encoder_only
    (integer_outcome (float64 := float64) str_container crop_info
       label_encoder v).
Proof.
  intros log. unfold integer_outcome.
  destruct label_encoder as [it|].
  - destruct (it (py_int v)); by eexists _, [_].
  - eexists _, []. by rewrite app_nil_r.
Qed.

Lemma encoder_only_map_class_label v : encoder_only (map_class_label v).
Proof.
  intros log. destruct (is_integer v) eqn:Hint.
  - rewrite map_class_label_integer_outcome by done.
    apply encoder_only_integer_outcome.
  - rewrite map_class_label_other by done. by apply encoder_only_ret.
Qed.

Lemma encoder_only_to_crop_name v : encoder_only (to_crop_name v).
Proof.
  intros log. rewrite to_crop_name_unwrap.
  destruct (unwrapped v) as [x|e].
  - destruct (is_ndarray_or_list x).
    + by apply encoder_only_ret.
    + apply encoder_only_map_class_label.
  - exists (Raise e), []. by rewrite app_nil_r.
Qed.

(** [top_k_predictions] calls [predict_proba] at most once, before any
    encoder call, and never calls [predict]. *)
Lemma top_k_predictions_calls features k log :
  ∃ r calls,
    top_k_predictions features k log = (r, log ++ calls) ∧
    (calls = [] ∨
     ∃ calls', calls = CallPredictProba features :: calls' ∧
               filter is_classifier_call calls' = []).
Proof.
  unfold top_k_predictions.
  destruct (model_predict_proba model) as [pp|].
  2: { exists (Ok None), []. rewrite app_nil_r. by split; [|left]. }
  unfold bind at 1, external at 1.
  destruct (pp features) as [proba|e].
  2: { exists (Raise e), [CallPredictProba features]. split; [done|].
       right. by exists []. }
  destruct (model_classes_ model) as [classes|].
  2: { exists (Ok None), [CallPredictProba features]. split; [done|].
       right. by exists []. }
  set (rest := bind _ _).
  assert (encoder_only rest) as Hrest.
  { apply encoder_only_bind; [apply encoder_only_lift|]. intros probs.
    apply encoder_only_bind; [|intros; apply encoder_only_ret].
    apply encoder_only_for_each. intros idx.
    apply encoder_only_bind; [apply encoder_only_lift|]. intros cls.
    apply encoder_only_bind; [apply encoder_only_map_class_label|]. intros name.
    apply encoder_only_bind; [apply encoder_only_lift|]. intros p.
    apply encoder_only_ret. }
  destruct (Hrest (log ++ [CallPredictProba features]))
    as (r & calls & Hrun & Hcalls).
  exists r, (CallPredictProba features :: calls). rewrite Hrun.
  split; [by rewrite <- app_assoc|]. right. by exists calls.
Qed.

Lemma predict_features_calls features log :
  ∃ r calls,
    predict_features features log = (r, log ++ calls) ∧
    (filter is_classifier_call calls = [CallPredict features] ∨
     filter is_classifier_call calls =
     [CallPredict features; CallPredictProba features]).
Proof.
  unfold predict_features. unfold bind at 1, external at 1.
  destruct (model_predict model features) as [prediction|e].
  2: { exists (Raise e), [CallPredict features]. by split; [|left]. }
  unfold bind at 1, lift at 1.
  destruct (seq_getitem prediction 0) as [first|e].
  2: { exists (Raise e), [CallPredict features]. by split; [|left]. }
  unfold bind at 1.
  destruct (encoder_only_to_crop_name first (log ++ [CallPredict features]))
    as (r1 & calls1 & Hrun1 & Hcalls1).
  rewrite Hrun1. destruct r1 as [label_str|e].
  2: { exists (Raise e), (CallPredict features :: calls1).
       rewrite <- app_assoc. split; [done|]. left.
       by rewrite filter_cons_True, Hcalls1 by done. }
  unfold bind at 1.
  destruct (top_k_predictions_calls features 3
              ((log ++ [CallPredict features]) ++ calls1))
    as (r2 & calls2 & Hrun2 & Hcalls2).
  rewrite Hrun2.
  exists (match r2 with
          | Ok top3 =>
              Ok (Response
                    (PredictionBody
                       label_str
                       (dict_get crop_info (lower label_str) no_information)
                       (if truthy top3 then top3 else None))
                    200)
          | Raise e => Raise e
          end), (CallPredict features :: calls1 ++ calls2).
  split.
  { rewrite <- !app_assoc. by destruct r2. }
  rewrite filter_cons_True, filter_app, Hcalls1 by done. cbn [app].
  destruct Hcalls2 as [-> | (calls' & -> & Hcalls')]; [by left|].
  right. by rewrite filter_cons_True, Hcalls' by done.
Qed.

Lemma predict_features_Ok features log resp log' :
  predict_features features log = (Ok resp, log') →
  resp_status resp = 200%Z ∧
  ∃ prediction description top_3,
    resp_body resp = PredictionBody prediction description top_3 ∧
    (∀ entries, top_3 = Some entries → entries ≠ []).
Proof.
  unfold predict_features. intros Hrun.
  apply bind_Ok_inv in Hrun as (prediction & ? & _ & Hrun).
  apply bind_Ok_inv in Hrun as (first & ? & _ & Hrun).
  apply bind_Ok_inv in Hrun as (label_str & ? & _ & Hrun).
  apply bind_Ok_inv in Hrun as (top3 & ? & _ & Hrun).
  injection Hrun as <- _. split; [done|]. eexists _, _, _. split; [done|].
  intros entries. by destruct top3 as [[|entry entries']|]; intros [= <-].
Qed.

(** X1: the handler answers every request: no exception leaves it.  The
    answer is a prediction with status 200 or an error object with status
    400 or 500. *)
Theorem predict_always_responds data log :
  ∃ resp log',
    predict data log = (Ok resp, log') ∧
    ((resp_status resp = 200%Z ∧
      ∃ prediction description top_3,
        resp_body resp = PredictionBody prediction description top_3) ∨
     ((resp_status resp = 400%Z ∨ resp_status resp = 500%Z) ∧
      ∃ error, resp_body resp = ErrorBody error)).
Proof.
  assert (∀ error status,
            (status = 400%Z ∨ status = 500%Z) →
            ∃ resp log',
              (Ok (Response (ErrorBody error) status), log) = (Ok resp, log') ∧
              ((resp_status resp = 200%Z ∧
                ∃ prediction description top_3,
                  resp_body resp = PredictionBody prediction description top_3) ∨
               ((resp_status resp = 400%Z ∨ resp_status resp = 500%Z) ∧
                ∃ error, resp_body resp = ErrorBody error))) as Herror.
  { intros error status Hstatus. eexists _, _. split; [done|]. right. eauto. }
  destruct data as [[| | | | |data]|]; try (apply Herror; by left).
  destruct (first_missing data required) as [key|] eqn:Hmissing.
  { unfold predict. rewrite Hmissing. apply Herror. by left. }
  destruct (float_fields py_float data required) as [features|e] eqn:Hfields.
  2: { rewrite (predict_conversion_error _ _ _ _ _ _ _ _ _ _ Hmissing Hfields).
       apply Herror. by right. }
  rewrite (predict_validated _ _ _ _ _ _ _ _ _ _ Hmissing Hfields).
  unfold try_except.
  destruct (predict_features features log) as [[resp|e] log1] eqn:Hrun.
  - exists resp, log1. split; [done|]. left.
    destruct (predict_features_Ok _ _ _ _ Hrun) as (Hstatus & p & d & t & Hbody & _).
    eauto.
  - eexists _, _. split; [done|]. right. eauto.
Qed.

(** X2: between the arrival of a request and its answer the classifier is
    called at most twice, [predict] first and then [predict_proba] on the
    same feature row; a request answered with status 400 causes no call
    at all. *)
Theorem predict_classifier_calls data log :
  ∃ resp calls,
    predict data log = (Ok resp, log ++ calls) ∧
    (resp_status resp = 400%Z → calls = []) ∧
    (calls = [] ∨
     ∃ features,
       filter is_classifier_call calls = [CallPredict features] ∨
       filter is_classifier_call calls =
       [CallPredict features; CallPredictProba features]).
Proof.
  assert (∀ error status,
            ∃ resp calls,
              (Ok (Response (ErrorBody error) status), log) =
              (Ok resp, log ++ calls) ∧
              (resp_status resp = 400%Z → calls = []) ∧
              (calls = [] ∨
               ∃ features,
                 filter is_classifier_call calls = [CallPredict features] ∨
                 filter is_classifier_call calls =
                 [CallPredict features; CallPredictProba features]))
    as Hquiet.
  { intros error status. eexists _, []. rewrite app_nil_r. by split_and!; [..|left]. }
  destruct data as [[| | | | |data]|]; try apply Hquiet.
  destruct (first_missing data required) as [key|] eqn:Hmissing.
  { unfold predict. rewrite Hmissing. apply Hquiet. }
  destruct (float_fields py_float data required) as [features|e] eqn:Hfields.
  2: { rewrite (predict_conversion_error _ _ _ _ _ _ _ _ _ _ Hmissing Hfields).
       apply Hquiet. }
  rewrite (predict_validated _ _ _ _ _ _ _ _ _ _ Hmissing Hfields).
  unfold try_except.
  destruct (predict_features_calls features log) as (r & calls & Hrun & Hcalls).
  rewrite Hrun. destruct r as [resp|e].
  - exists resp, calls. split_and!; [done| |right; by exists features].
    destruct (predict_features_Ok _ _ _ _ Hrun) as [-> _]. done.
  - eexists _, calls. split_and!; [done|done|right; by exists features].
Qed.

Lemma for_each_length {A B} (f : A → Py F B) xs log ys log' :
  for_each f xs log = (Ok ys, log') → length ys = length xs.
Proof.
  revert log ys. induction xs as [|x xs IH]; intros log ys; cbn [for_each].
  - by intros [= <- _].
  - intros (y & log1 & _ & Hrest)%bind_Ok_inv.
    apply bind_Ok_inv in Hrest as (ys' & log2 & Hloop & [= <- <-]).
    cbn. f_equal. by eapply IH.
Qed.

Lemma top_k_predictions_at_most_k features k log results log' :
  (0 ≤ k)%Z →
  top_k_predictions features k log = (Ok (Some results), log') →
  length results ≤ Z.to_nat k.
Proof.
  intros Hk. unfold top_k_predictions.
  destruct (model_predict_proba model) as [pp|]; [|done].
  intros (proba & log1 & _ & Hrest)%bind_Ok_inv.
  destruct (model_classes_ model) as [classes|]; [|done].
  apply bind_Ok_inv in Hrest as (probs & log2 & _ & Hrest).
  apply bind_Ok_inv in Hrest as (entries & log3 & Hloop & [= <- _]).
  apply for_each_length in Hloop. rewrite Hloop, slice_to_nonneg by done.
  rewrite length_take. lia.
Qed.

Lemma float_fields_first_failure data keys n key e :
  keys !! n = Some key →
  float_field py_float data key = Raise e →
  (∀ m key', m < n → keys !! m = Some key' →
             ∃ x, float_field py_float data key' = Ok x) →
  float_fields py_float data keys = Raise e.
Proof.
  revert n. induction keys as [|key0 keys IH]; intros n Hn Hkey Hbefore; [done|].
  cbn [float_fields]. destruct n as [|n].
  - injection Hn as ->. by rewrite Hkey.
  - destruct (Hbefore 0 key0) as [x ->]; [lia|done|].
    rewrite (IH n); [done..|]. intros m key' Hm Hkey'.
    apply (Hbefore (S m)); [lia|done].
Qed.

(** X3: status 400 is the answer to exactly the malformed requests: a
    body that is not a JSON object, or an object that lacks a required
    field. *)
Theorem predict_status_400 data log :
  ∃ resp log',
    predict data log = (Ok resp, log') ∧
    (resp_status resp = 400%Z ↔
     (∀ fields, data ≠ Some (JObject fields)) ∨
     (∃ fields key, data = Some (JObject fields) ∧
                    key ∈ required ∧ fields !! key = None)).
Proof.
  destruct data as [[| | | | |data]|];
    try (eexists _, _; split; [reflexivity|]; split; [by left|done]).
  destruct (first_missing data required) as [key|] eqn:Hmissing.
  - unfold predict. rewrite Hmissing. eexists _, _. split; [reflexivity|].
    split; [|done]. intros _. right.
    destruct (first_missing data required) as [key'|] eqn:Hnone; [|done].
    assert (¬ ∀ key0, key0 ∈ required → is_Some (data !! key0)) as Hnot.
    { rewrite <- first_missing_None. congruence. }
    destruct (decide (Forall (λ key0, is_Some (data !! key0)) required))
      as [Hall|Hsome].
    { destruct Hnot. by apply Forall_forall. }
    apply not_Forall_Exists in Hsome; [|apply _].
    apply Exists_exists in Hsome as (key0 & Hin & Hkey0).
    exists data, key0. split_and!; [done..|].
    by apply eq_None_not_Some.
  - assert (∀ resp,
              resp_status resp ≠ 400%Z →
              resp_status resp = 400%Z ↔
              (∀ fields, Some (JObject data) ≠ Some (JObject fields)) ∨
              (∃ fields key, Some (JObject data) = Some (JObject fields) ∧
                             key ∈ required ∧ fields !! key = None))
      as Hother.
    { intros resp Hresp. split; [done|].
      intros [Hno | (fields & key & [= <-] & Hin & Hkey)].
      - by destruct (Hno data).
      - apply first_missing_None with (key := key) in Hmissing as [v Hv]; [|done].
        congruence. }
    destruct (float_fields py_float data required) as [features|e] eqn:Hfields.
    2: { rewrite (predict_conversion_error _ _ _ _ _ _ _ _ _ _ Hmissing Hfields).
         eexists _, _. split; [done|]. by apply Hother. }
    rewrite (predict_validated _ _ _ _ _ _ _ _ _ _ Hmissing Hfields).
    unfold try_except.
    destruct (predict_features features log) as [[resp|e] log1] eqn:Hrun.
    + exists resp, log1. split; [done|]. apply Hother.
      destruct (predict_features_Ok _ _ _ _ Hrun) as [-> _]. done.
    + eexists _, _. split; [done|]. by apply Hother.
Qed.

(** X4: when every required field is present and [float()] rejects one of
    them, the answer is status 500 with the text of the exception raised
    for the first rejected field, in the order of [required]; the
    classifier is not called. *)
Theorem predict_rejects_unconvertible_field data n key e log :
  first_missing data required = None →
  required !! n = Some key →
  float_field py_float data key = Raise e →
  (∀ m key', m < n → required !! m = Some key' →
             ∃ x, float_field py_float data key' = Ok x) →
  predict (Some (JObject data)) log =
  (Ok (Response (ErrorBody (exn_str e)) 500), log).
Proof.
  intros Hmissing Hn Hkey Hbefore.
  apply (predict_conversion_error _ _ _ _ _ _ _ _ _ _ Hmissing).
  by eapply float_fields_first_failure.
Qed.

(** X5: when the classifier's [predict] raises, or returns an empty
    array, on a validated request, the answer is status 500 with the text
    of the exception; [predict] is the only call made, [predict_proba] and
    the encoder are not reached. *)
Theorem predict_reports_classifier_failure data features log :
  first_missing data required = None →
  float_fields py_float data required = Ok features →
  (∀ e, model_predict model features = Raise e →
        predict (Some (JObject data)) log =
        (Ok (Response (ErrorBody (exn_str e)) 500),
         log ++ [CallPredict features])) ∧
  (model_predict model features = Ok [] →
   ∃ error,
     predict (Some (JObject data)) log =
     (Ok (Response (ErrorBody error) 500), log ++ [CallPredict features])).
Proof.
  intros Hmissing Hfields.
  rewrite (predict_validated _ _ _ _ _ _ _ _ _ _ Hmissing Hfields).
  unfold try_except, predict_features.
  unfold bind at 1, external at 1. split.
  - intros e ->. reflexivity.
  - intros ->. by eexists.
Qed.

(** X6: a [top_3] field, when the answer has one, holds at least one and
    at most three entries. *)
Theorem predict_top_3_size data log prediction description entries status log' :
  predict data log =
  (Ok (Response (PredictionBody prediction description (Some entries)) status),
   log') →
  1 ≤ length entries ≤ 3.
Proof.
  unfold predict.
  destruct data as [[| | | | |data]|]; try done.
  intros [(resp & Hbody & [= <-]) | (e & log1 & _ & [=])]%try_except_inv.
  destruct (first_missing data required); [done|].
  do 9 (apply bind_Ok_inv in Hbody as (? & ? & _ & Hbody)).
  apply bind_Ok_inv in Hbody as (label_str & ? & _ & Hbody).
  apply bind_Ok_inv in Hbody as (top3 & ? & Htop & Hbody).
  injection Hbody as _ _ Hsome.
  destruct top3 as [[|entry results]|]; try discriminate Hsome.
  injection Hsome as <-.
  apply top_k_predictions_at_most_k in Htop; [|done].
  cbn in *. lia.
Qed.
End Calls.

(** ** Edge cases of the resolvers and of the ranking *)

Section Resolver_edges.
Context {float64 : Type}.
Variable str_container : pyval → string.
Variable crop_info : pydict string.
Variable label_encoder : option (Z → res pyval).

Local Abbreviation str := (py_str str_container).
Local Abbreviation to_crop_name :=
  (to_crop_name (float64 := float64) str_container crop_info label_encoder).

Lemma dict_lookup_key {V} (d : pydict V) key :
  key ∈ dict_keys d → is_Some (dict_lookup d key).
Proof.
  induction d as [|[key0 v] d IH]; cbn.
  - by intros ?%elem_of_nil.
  - intros [->|Hin]%elem_of_cons; case_decide; eauto. done.
Qed.

(** X7: exactly one level of a one-element list or array is unwrapped.  A
    scalar inside is resolved as if it had been passed directly; a
    container inside (a nested list, an array of any dimension) is
    stringified whole and its elements are not resolved. *)
Theorem to_crop_name_unwraps_one_level x log :
  (is_ndarray_or_list x = false →
   to_crop_name (PyList [x]) log = to_crop_name x log ∧
   to_crop_name (NdArray [x]) log = to_crop_name x log) ∧
  (is_ndarray_or_list x = true →
   to_crop_name (PyList [x]) log = (Ok (str x), log) ∧
   to_crop_name (NdArray [x]) log = (Ok (str x), log)).
Proof.
  split; intros Hx.
  - rewrite (to_crop_name_unwrap _ _ _ (PyList [x])),
      (to_crop_name_unwrap _ _ _ (NdArray [x])).
    cbn [unwrapped]. rewrite Hx. by rewrite to_crop_name_scalar.
  - rewrite (to_crop_name_unwrap _ _ _ (PyList [x])),
      (to_crop_name_unwrap _ _ _ (NdArray [x])).
    cbn [unwrapped]. by rewrite Hx.
Qed.

(** X8: when the encoder is absent or raises, an integer inside
    [0 .. n-1], with [n] the number of catalog keys, resolves to the key at
    that position of the alphabetical order, which the catalog knows; an
    integer outside that range, every negative one included, resolves to
    its own text. *)
Theorem to_crop_name_fallback_bounds v log :
  is_integer v = true →
  label_encoder = None ∨
  (∃ inverse_transform e,
     label_encoder = Some inverse_transform ∧
     inverse_transform (py_int v) = Raise e) →
  ((0 ≤ py_int v < Z.of_nat (length (dict_keys crop_info)))%Z →
   ∃ name description,
     (to_crop_name v log).1 = Ok name ∧
     sorted (dict_keys crop_info) !! Z.to_nat (py_int v) = Some name ∧
     dict_lookup crop_info name = Some description) ∧
  (¬ (0 ≤ py_int v < Z.of_nat (length (dict_keys crop_info)))%Z →
   (to_crop_name v log).1 = Ok (str v)).
Proof.
  intros Hint Hencoder.
  assert ((to_crop_name v log).1 =
          Ok (default (str v) (int_to_class crop_info !! py_int v))) as ->.
  { rewrite to_crop_name_integer_outcome by done. unfold integer_outcome.
    destruct Hencoder as [-> | (it & e & -> & ->)]; done. }
  rewrite int_to_class_lookup. split; intros Hrange.
  - rewrite decide_True by done.
    destruct (lookup_lt_is_Some_2 (alphabetical_classes crop_info)
                (Z.to_nat (py_int v))) as [name Hname].
    { unfold alphabetical_classes. rewrite sorted_length. lia. }
    destruct (dict_lookup_key crop_info name) as [description Hdescription].
    { rewrite <- (sorted_Permutation (dict_keys crop_info)).
      by eapply list_elem_of_lookup_2. }
    exists name, description. by rewrite Hname.
  - by rewrite decide_False.
Qed.
End Resolver_edges.

Section Ranking_edges.
Context {float64 : Type}.
Variable lower : string → string.
Variable str_container : pyval → string.
Variable argsort : list Q → list nat.
Variable model : classifier (list float64).
Variable crop_info : pydict string.
Variable label_encoder : option (Z → res pyval).

Local Abbreviation F := (list float64).
Local Abbreviation map_class_label :=
  (map_class_label (float64 := float64) str_container crop_info label_encoder).
Local Abbreviation top_k_predictions :=
  (top_k_predictions lower str_container argsort model crop_info label_encoder).

(** The loop of [top_k_predictions] over indices that both arrays have. *)
Lemma top_k_predictions_run features k predict_proba probs rest classes log :
  model_predict_proba model = Some predict_proba →
  predict_proba features = Ok (probs :: rest) →
  model_classes_ model = Some classes →
  (∀ idx, idx ∈ slice_to k (reverse (argsort probs)) →
          idx < length classes ∧ idx < length probs) →
  ∃ results log',
    top_k_predictions features k log = (Ok (Some results), log') ∧
    Forall2
      (λ idx entry,
         probability entry = prob_at probs idx ∧
         ∃ cls, classes !! idx = Some cls ∧
                (map_class_label cls []).1 = Ok (label entry))
      (slice_to k (reverse (argsort probs))) results.
Proof.
  intros Hproba Hrun Hclasses Hbound.
  unfold top_k_predictions. rewrite Hproba, Hclasses.
  unfold bind at 1, external at 1. rewrite Hrun.
  unfold bind at 1, lift at 1. cbn [seq_getitem lookup list_lookup].
  set (indices := slice_to k (reverse (argsort probs))) in *.
  set (body := λ idx : nat, _).
  destruct (for_each_ok body
              (λ idx entry,
                 probability entry = prob_at probs idx ∧
                 ∃ cls, classes !! idx = Some cls ∧
                        (map_class_label cls []).1 = Ok (label entry))
              indices (log ++ [CallPredictProba features]))
    as (results & log' & Hloop & Hrel).
  { intros idx log0 [Hcls Hp]%Hbound.
    apply lookup_lt_is_Some_2 in Hcls as [cls Hcls].
    apply lookup_lt_is_Some_2 in Hp as [p Hp].
    destruct (map_class_label_ok str_container crop_info label_encoder
                cls log0) as (name & log1 & Hname).
    exists (Ranked name p (dict_get crop_info (lower name) no_information)), log1.
    split.
    - unfold body, bind, lift, seq_getitem. by rewrite Hcls, Hname, Hp.
    - split; [unfold prob_at; by rewrite Hp|].
      exists cls. split; [done|].
      by rewrite (map_class_label_log_irrelevant _ _ _ cls [] log0), Hname. }
  exists results, log'. unfold bind at 1. by rewrite Hloop.
Qed.

Lemma sliced_indices_bound (probs : list Q) k idx :
  argsort_spec argsort →
  idx ∈ slice_to k (reverse (argsort probs)) → idx < length probs.
Proof.
  intros Hspec Hidx. unfold slice_to in Hidx.
  assert (idx ∈ reverse (argsort probs)) as Hin.
  { destruct (0 <=? k)%Z; by apply subseteq_take in Hidx. }
  rewrite elem_of_reverse in Hin.
  destruct (Hspec probs) as [Hperm _]. rewrite Hperm in Hin.
  apply elem_of_seq in Hin. lia.
Qed.

(** An index that the slice leaves out is no more probable than one it
    keeps. *)
Lemma sliced_out_below (probs : list Q) k idx kept :
  argsort_spec argsort →
  idx < length probs →
  idx ∉ slice_to k (reverse (argsort probs)) →
  kept ∈ slice_to k (reverse (argsort probs)) →
  (prob_at probs idx <= prob_at probs kept)%Q.
Proof.
  intros Hspec Hidx Hout Hkept.
  destruct (Hspec probs) as [Hperm Hsorted].
  apply (StronglySorted_reverse
           (λ i j, (prob_at probs i <= prob_at probs j)%Q)) in Hsorted.
  assert (idx ∈ reverse (argsort probs)) as Hin.
  { rewrite elem_of_reverse, Hperm. apply elem_of_seq. lia. }
  unfold slice_to in Hout, Hkept.
  set (n := if (0 <=? k)%Z then Z.to_nat k
            else length (reverse (argsort probs)) - Z.to_nat (- k)) in *.
  assert (kept ∈ take n (reverse (argsort probs))) as Hkept'.
  { unfold n. by destruct (0 <=? k)%Z. }
  assert (idx ∉ take n (reverse (argsort probs))) as Hout'.
  { unfold n. by destruct (0 <=? k)%Z. }
  rewrite <- (take_drop n (reverse (argsort probs))) in Hin, Hsorted.
  apply elem_of_app in Hin as [Hin|Hin]; [done|].
  exact (StronglySorted_app_1_elem_of _ _ _ _ _ Hsorted Hkept' Hin).
Qed.

(** With a negative [k] the slice leaves out the first [-k] indices of the
    ascending order. *)
Lemma negative_slice_left_out (probs : list Q) k idx :
  argsort_spec argsort →
  (k < 0)%Z →
  idx < length probs →
  idx ∉ slice_to k (reverse (argsort probs)) ↔
  idx ∈ take (Z.to_nat (- k)) (argsort probs).
Proof.
  intros Hspec Hk Hidx. destruct (Hspec probs) as [Hperm _].
  assert (length (argsort probs) = length probs) as Hlen
    by (by rewrite Hperm, length_seq).
  assert (NoDup (argsort probs)) as Hnodup
    by (rewrite Hperm; apply NoDup_seq).
  assert (idx ∈ argsort probs) as Hin
    by (rewrite Hperm; apply elem_of_seq; lia).
  unfold slice_to. rewrite (proj2 (Z.leb_gt 0 k)) by done.
  rewrite length_reverse, take_reverse, elem_of_reverse, Hlen.
  set (m := Z.to_nat (- k)).
  set (j := length probs - (length probs - m)).
  assert (take m (argsort probs) = take j (argsort probs)) as ->.
  { destruct (decide (m ≤ length probs)) as [Hm|Hm].
    - by replace j with m by lia.
    - replace j with (length probs) by lia.
      by rewrite !take_ge by lia. }
  rewrite <- (take_drop j (argsort probs)) in Hnodup, Hin.
  apply NoDup_app in Hnodup as (_ & Hdisjoint & _).
  apply elem_of_app in Hin as [Hin|Hin].
  - split; [done|]. intros _. by apply Hdisjoint.
  - split; [done|]. intros Htake. by apply Hdisjoint in Htake.
Qed.

(** X9: [k = 0] gives the empty ranking, and a negative [k] is a slice
    from the end: the ranking then holds all classes but the [-k] least
    probable ones, none when [-k] exceeds their number.  Each entry is the
    class at its index of the sliced order; the classes left out are those
    at the first [-k] indices of the ascending order, and none of them is
    more probable than an entry. *)
Theorem top_k_predictions_nonpositive_k
    features k predict_proba probs rest classes log :
  argsort_spec argsort →
  model_predict_proba model = Some predict_proba →
  predict_proba features = Ok (probs :: rest) →
  model_classes_ model = Some classes →
  length classes = length probs →
  (k ≤ 0)%Z →
  ∃ results log',
    top_k_predictions features k log = (Ok (Some results), log') ∧
    (k = 0%Z → results = []) ∧
    ((k < 0)%Z → length results = length probs - Z.to_nat (- k)) ∧
    StronglySorted by_probability_descending results ∧
    Forall2
      (λ idx entry,
         probability entry = prob_at probs idx ∧
         ∃ cls, classes !! idx = Some cls ∧
                (map_class_label cls []).1 = Ok (label entry))
      (slice_to k (reverse (argsort probs))) results ∧
    ((k < 0)%Z →
     ∀ idx, idx < length probs →
            idx ∉ slice_to k (reverse (argsort probs)) ↔
            idx ∈ take (Z.to_nat (- k)) (argsort probs)) ∧
    (∀ idx entry,
       idx < length probs →
       idx ∉ slice_to k (reverse (argsort probs)) →
       entry ∈ results →
       (prob_at probs idx <= probability entry)%Q).
Proof.
  intros Hspec Hproba Hrun Hclasses Hlen Hk.
  destruct (top_k_predictions_run features k predict_proba probs rest classes
              log Hproba Hrun Hclasses)
    as (results & log' & Htop & Hrel).
  { intros idx Hidx%(sliced_indices_bound _ _ _ Hspec). lia. }
  exists results, log'. split; [done|].
  assert (length (reverse (argsort probs)) = length probs) as Hall.
  { destruct (Hspec probs) as [Hperm _].
    by rewrite length_reverse, Hperm, length_seq. }
  split_and!.
  - intros ->. cbn in Hrel. by apply Forall2_nil_inv_l in Hrel.
  - intros Hneg. rewrite <- (Forall2_length _ _ _ Hrel). unfold slice_to.
    rewrite (proj2 (Z.leb_gt 0 k)) by done.
    rewrite length_take, Hall. lia.
  - eapply (StronglySorted_Forall2
              (λ i j, (prob_at probs j <= prob_at probs i)%Q));
      [|exact Hrel|].
    + intros i j a b [Ha _] [Hb _] Hij. unfold by_probability_descending.
      by rewrite Ha, Hb.
    + unfold slice_to. destruct (Hspec probs) as [_ Hsorted].
      destruct (0 <=? k)%Z; apply StronglySorted_take;
        by apply (StronglySorted_reverse
                    (λ i j, (prob_at probs i <= prob_at probs j)%Q)).
  - exact Hrel.
  - intros Hneg idx Hidx. by apply negative_slice_left_out.
  - intros idx entry Hidx Hout Hentry.
    apply list_elem_of_lookup in Hentry as [r Hr].
    destruct (Forall2_lookup_r _ _ _ _ _ Hrel Hr) as (kept & Hkept & -> & _).
    apply list_elem_of_lookup_2 in Hkept.
    by apply (sliced_out_below probs k).
Qed.

(** X10: the ranking keeps the most probable classes: no class that was
    left out has a higher probability than an entry of the ranking. *)
Theorem top_k_predictions_keeps_the_largest
    features k predict_proba probs rest classes log :
  argsort_spec argsort →
  model_predict_proba model = Some predict_proba →
  predict_proba features = Ok (probs :: rest) →
  model_classes_ model = Some classes →
  length classes = length probs →
  ∃ results log',
    top_k_predictions features k log = (Ok (Some results), log') ∧
    ∀ idx entry,
      idx < length probs →
      idx ∉ slice_to k (reverse (argsort probs)) →
      entry ∈ results →
      (prob_at probs idx <= probability entry)%Q.
Proof.
  intros Hspec Hproba Hrun Hclasses Hlen.
  destruct (top_k_predictions_run features k predict_proba probs rest classes
              log Hproba Hrun Hclasses)
    as (results & log' & Htop & Hrel).
  { intros idx Hidx%(sliced_indices_bound _ _ _ Hspec). lia. }
  exists results, log'. split; [done|].
  intros idx entry Hidx Hout Hentry.
  apply list_elem_of_lookup in Hentry as [r Hr].
  destruct (Forall2_lookup_r _ _ _ _ _ Hrel Hr) as (kept & Hkept & -> & _).
  apply list_elem_of_lookup_2 in Hkept.
  destruct (Hspec probs) as [Hperm Hsorted].
  apply (StronglySorted_reverse
           (λ i j, (prob_at probs i <= prob_at probs j)%Q)) in Hsorted.
  assert (idx ∈ reverse (argsort probs)) as Hin.
  { rewrite elem_of_reverse, Hperm. apply elem_of_seq. lia. }
  unfold slice_to in Hout, Hkept.
  set (n := if (0 <=? k)%Z then Z.to_nat k
            else length (reverse (argsort probs)) - Z.to_nat (- k)) in *.
  assert (kept ∈ take n (reverse (argsort probs))) as Hkept'.
  { unfold n. by destruct (0 <=? k)%Z. }
  assert (idx ∉ take n (reverse (argsort probs))) as Hout'.
  { unfold n. by destruct (0 <=? k)%Z. }
  rewrite <- (take_drop n (reverse (argsort probs))) in Hin, Hsorted.
  apply elem_of_app in Hin as [Hin|Hin]; [done|].
  exact (StronglySorted_app_1_elem_of _ _ _ _ _ Hsorted Hkept' Hin).
Qed.

Lemma for_each_raises {A B} (f : A → Py F B) xs (P : exn → Prop) x :
  x ∈ xs →
  (∀ log, ∃ e log', f x log = (Raise e, log') ∧ P e) →
  (∀ x' log e log', f x' log = (Raise e, log') → P e) →
  ∀ log, ∃ e log', for_each f xs log = (Raise e, log') ∧ P e.
Proof.
  intros Hx Hfails Hkind. induction xs as [|x0 xs IH]; intros log.
  - by apply elem_of_nil in Hx.
  - cbn [for_each]. unfold bind at 1.
    destruct (f x0 log) as [[y|e] log1] eqn:Hrun0.
    2: { exists e, log1. split; [done|]. by eapply Hkind. }
    apply elem_of_cons in Hx as [->|Hx].
    { destruct (Hfails log) as (e & log' & Hrun & _). congruence. }
    destruct (IH Hx log1) as (e & log' & Hloop & He).
    exists e, log'. unfold bind at 1. by rewrite Hloop.
Qed.

(** X11: when one of the ranked indices has no entry in [classes_] (the
    class list is shorter than the probability row), [top_k_predictions]
    raises [IndexError] instead of returning a ranking. *)
Theorem top_k_predictions_short_classes
    features k predict_proba probs rest classes idx log :
  model_predict_proba model = Some predict_proba →
  predict_proba features = Ok (probs :: rest) →
  model_classes_ model = Some classes →
  idx ∈ slice_to k (reverse (argsort probs)) →
  length classes ≤ idx →
  ∃ msg, (top_k_predictions features k log).1 = Raise (IndexError msg).
Proof.
  intros Hproba Hrun Hclasses Hidx Hshort.
  unfold top_k_predictions. rewrite Hproba, Hclasses.
  unfold bind at 1, external at 1. rewrite Hrun.
  unfold bind at 1, lift at 1. cbn [seq_getitem lookup list_lookup].
  set (body := λ idx : nat, _).
  destruct (for_each_raises body (slice_to k (reverse (argsort probs)))
              (λ e, ∃ msg, e = IndexError msg) idx Hidx)
    with (log := log ++ [CallPredictProba features])
    as (e & log' & Hloop & msg & ->).
  - intros log0. eexists _, log0. unfold body, bind at 1, lift at 1, seq_getitem.
    rewrite (lookup_ge_None_2 classes idx) by done. split; [done|]. eauto.
  - intros idx' log0 e log1. unfold body, bind at 1, lift at 1, seq_getitem.
    destruct (classes !! idx') as [cls|]; [|intros [= <- _]; eauto].
    unfold bind at 1.
    destruct (map_class_label_ok str_container crop_info label_encoder cls log0)
      as (name & log2 & ->).
    unfold bind at 1, lift at 1.
    destruct (probs !! idx') as [p|]; [done|]. intros [= <- _]. eauto.
  - exists msg. unfold bind at 1. by rewrite Hloop.
Qed.
End Ranking_edges.


(** ** The CORS configuration *)

Section Cors.
Implicit Types (s o : string) (c : ascii).

Lemma lstrip_chars s c : c ∈ chars (lstrip s) → c ∈ chars s.
Proof.
  induction s as [|c0 s IH]; cbn; [done|].
  destruct (is_space c0); [|done]. intros Hc. right. by apply IH.
Qed.

Lemma rstrip_chars s c : c ∈ chars (rstrip s) → c ∈ chars s.
Proof.
  revert c. induction s as [|c0 s IH]; intros c; cbn; [done|].
  destruct (rstrip s) as [|c1 r] eqn:Hr.
  - destruct (is_space c0); cbn; [by intros ?%elem_of_nil|].
    intros [->|[]%elem_of_nil]%elem_of_cons. by left.
  - cbn. intros [->|Hc]%elem_of_cons; [by left|]. right. by apply IH.
Qed.

Lemma str_strip_chars s c : c ∈ chars (str_strip s) → c ∈ chars s.
Proof. intros Hc. by apply lstrip_chars, rstrip_chars. Qed.

Lemma lstrip_blank s : lstrip s = "" ↔ Forall (λ c, is_space c = true) (chars s).
Proof.
  induction s as [|c s IH]; cbn; [by split; [constructor|]|].
  destruct (is_space c) eqn:Hc.
  - rewrite IH. split; [by constructor|]. by intros [_ ?]%Forall_cons.
  - split; [done|]. intros [Hc' _]%Forall_cons. congruence.
Qed.

Lemma rstrip_blank s : rstrip s = "" ↔ Forall (λ c, is_space c = true) (chars s).
Proof.
  induction s as [|c s IH]; cbn; [by split; [constructor|]|].
  destruct (rstrip s) as [|c1 r] eqn:Hr.
  - destruct (is_space c) eqn:Hc.
    + split; [|done]. intros _. constructor; [done|]. by apply IH.
    + split; [done|]. intros [Hc' _]%Forall_cons. congruence.
  - split; [done|]. intros [_ Hs]%Forall_cons. apply IH in Hs. done.
Qed.

Lemma str_strip_blank s :
  str_strip s = "" ↔ Forall (λ c, is_space c = true) (chars s).
Proof.
  unfold str_strip. rewrite rstrip_blank. split.
  - intros Hall. apply lstrip_blank. apply rstrip_blank in Hall.
    destruct (lstrip s) as [|c t] eqn:Ht; [done|].
    assert (is_space c = false) as Hc.
    { clear Hall. induction s as [|c0 s IH]; cbn in Ht; [done|].
      destruct (is_space c0) eqn:Hc0; [by apply IH|]. congruence. }
    cbn in Hall. destruct (rstrip t); [by rewrite Hc in Hall | done].
  - intros Hall. apply lstrip_blank in Hall. by rewrite Hall.
Qed.

(** What [lstrip] leaves starts with a character that is not a space. *)
Lemma lstrip_head s c t : lstrip s = String c t → is_space c = false.
Proof.
  induction s as [|c0 s IH]; cbn; [done|].
  destruct (is_space c0) eqn:Hc0; [done|]. congruence.
Qed.

Lemma rstrip_idemp s : rstrip (rstrip s) = rstrip s.
Proof.
  induction s as [|c s IH]; cbn; [done|].
  destruct (rstrip s) as [|c1 r] eqn:Hr.
  - destruct (is_space c) eqn:Hc; cbn; [done|]. by rewrite Hc.
  - assert (∀ t, rstrip t = String c1 r →
                 rstrip (String c t) = String c (String c1 r)) as Hcons.
    { intros t Ht. cbn. by rewrite Ht. }
    by apply Hcons.
Qed.

Lemma lstrip_rstrip_head c (t : string) :
  is_space c = false → lstrip (rstrip (String c t)) = rstrip (String c t).
Proof.
  intros Hc. cbn [rstrip].
  destruct (rstrip t) as [|c1 r]; rewrite ?Hc; cbn [lstrip]; by rewrite Hc.
Qed.

Lemma str_strip_idemp s : str_strip (str_strip s) = str_strip s.
Proof.
  unfold str_strip. destruct (lstrip s) as [|c t] eqn:Ht; [done|].
  rewrite lstrip_rstrip_head by (by eapply lstrip_head).
  apply rstrip_idemp.
Qed.

Lemma split_comma_nonempty s : split_comma s ≠ [].
Proof.
  induction s as [|c s IH]; cbn; [done|].
  destruct (Ascii.eqb c ","); [done|]. by destruct (split_comma s).
Qed.

Lemma split_comma_chars s piece c :
  piece ∈ split_comma s → c ∈ chars piece → c ∈ chars s ∧ c ≠ ","%char.
Proof.
  revert piece. induction s as [|c0 s IH]; intros piece; cbn.
  - intros ->%list_elem_of_singleton. by intros ?%elem_of_nil.
  - destruct (Ascii.eqb c0 ",") eqn:Hc0.
    + intros [->|Hpiece]%elem_of_cons; [by intros ?%elem_of_nil|].
      intros Hc. destruct (IH piece Hpiece Hc). split; [by right|done].
    + apply Ascii.eqb_neq in Hc0.
      destruct (split_comma s) as [|piece0 pieces] eqn:Hs.
      { by destruct (split_comma_nonempty s). }
      intros [->|Hpiece]%elem_of_cons.
      * cbn. intros [->|Hc]%elem_of_cons; [by split; [left|]|].
        destruct (IH piece0) as [? ?]; [by left|done|]. split; [by right|done].
      * intros Hc. destruct (IH piece) as [? ?]; [by right|done|].
        split; [by right|done].
Qed.

(** X12: every origin handed to [CORS] is non-empty, has no whitespace at
    either end and contains no comma, and its characters come from the
    configured value. *)
Theorem cors_origins_clean env origins o :
  cors_origins env = Some origins →
  o ∈ origins →
  o ≠ "" ∧ str_strip o = o ∧ (","%char ∉ chars o) ∧
  ∃ value, env = Some value ∧ ∀ c, c ∈ chars o → c ∈ chars value.
Proof.
  destruct env as [value|]; [|done].
  unfold cors_origins. cbn [from_option id].
  destruct (_ || _); [done|]. intros [= <-].
  intros (piece & -> & [Hpiece Hin]%list_elem_of_filter)%list_elem_of_fmap.
  split_and!; [done|apply str_strip_idemp| |].
  - intros Hcomma%str_strip_chars.
    by destruct (split_comma_chars _ _ _ Hin Hcomma).
  - exists value. split; [done|]. intros c Hc%str_strip_chars.
    by destruct (split_comma_chars _ _ _ Hin Hc).
Qed.

(** X13: for a value of ASCII characters, every origin is allowed exactly
    when [ALLOWED_ORIGINS] is unset, is [*], or consists of whitespace only
    (the empty value included). *)
Theorem cors_origins_allow_all env :
  (∀ value, env = Some value → is_ascii value = true) →
  cors_origins env = None ↔
  env = None ∨ env = Some "*" ∨
  ∃ value, env = Some value ∧ Forall (λ c, is_space c = true) (chars value).
Proof.
  intros _. unfold cors_origins. destruct env as [value|]; cbn [from_option id].
  - destruct (bool_decide (value = "*")) eqn:Hstar.
    + apply bool_decide_eq_true in Hstar as ->. cbn. split; [|done].
      intros _. right. by left.
    + apply bool_decide_eq_false in Hstar. cbn [orb].
      destruct (bool_decide (str_strip value = "")) eqn:Hblank.
      * apply bool_decide_eq_true in Hblank. apply str_strip_blank in Hblank.
        split; [|done]. intros _. right. right. by exists value.
      * apply bool_decide_eq_false in Hblank. rewrite str_strip_blank in Hblank.
        split; [done|]. intros [|[[= ->]|(? & [= <-] & ?)]]; done.
  - split; [by left|done].
Qed.

(** X14: a value made of commas and whitespace only, with at least one
    comma, allows no origin at all: the list handed to [CORS] is empty. *)
Theorem cors_origins_only_separators value :
  ","%char ∈ chars value →
  Forall (λ c, c = ","%char ∨ is_space c = true) (chars value) →
  cors_origins (Some value) = Some [].
Proof.
  intros Hcomma Hall. unfold cors_origins. cbn [from_option id].
  rewrite bool_decide_eq_false_2.
  2: { intros ->. rewrite Forall_forall in Hall.
       destruct (Hall "*"%char) as [|]; [by left|done..]. }
  rewrite bool_decide_eq_false_2.
  2: { rewrite str_strip_blank, Forall_forall. intros Hblank.
       by specialize (Hblank _ Hcomma). }
  cbn [orb]. f_equal.
  destruct (filter _ _) as [|piece pieces] eqn:Hfilter; [done|].
  assert (piece ∈ filter (λ o, str_strip o ≠ "") (split_comma value))
    as [Hnot Hpiece]%list_elem_of_filter by (rewrite Hfilter; by left).
  destruct Hnot. apply str_strip_blank, Forall_forall. intros c Hc.
  destruct (split_comma_chars _ _ _ Hpiece Hc) as [Hin Hne].
  rewrite Forall_forall in Hall. by destruct (Hall c Hin).
Qed.

Lemma split_comma_comma_free o :
  ","%char ∉ chars o → split_comma o = [o].
Proof.
  induction o as [|c o IH]; cbn; [done|]. intros Hfree.
  destruct (Ascii.eqb c ",") eqn:Hc.
  { apply Ascii.eqb_eq in Hc as ->. destruct Hfree. by left. }
  rewrite IH; [done|]. intros Hin. apply Hfree. by right.
Qed.

Lemma split_comma_app o t :
  ","%char ∉ chars o →
  split_comma (o +:+ String "," t) = o :: split_comma t.
Proof.
  induction o as [|c o IH]; [done|]. intros Hfree.
  change (String c o +:+ String "," t) with (String c (o +:+ String "," t)).
  cbn [split_comma].
  destruct (Ascii.eqb c ",") eqn:Hc.
  { apply Ascii.eqb_eq in Hc as ->. destruct Hfree. by left. }
  rewrite IH; [done|]. intros Hin. apply Hfree. by right.
Qed.

Lemma split_comma_concat origins :
  origins ≠ [] →
  Forall (λ o, ","%char ∉ chars o) origins →
  split_comma (String.concat "," origins) = origins.
Proof.
  induction origins as [|o origins IH]; [done|]. intros _ [Ho Hrest]%Forall_cons.
  destruct origins as [|o' origins].
  - by apply split_comma_comma_free.
  - change (String.concat "," (o :: o' :: origins))
      with (o +:+ String "," (String.concat "," (o' :: origins))).
    rewrite split_comma_app by done. f_equal. by apply IH.
Qed.

Lemma clean_origins_kept origins :
  Forall (λ o, o ≠ "" ∧ str_strip o = o) origins →
  str_strip <$> filter (λ o, str_strip o ≠ "") origins = origins.
Proof.
  induction 1 as [|o origins [Ho Hstrip] _ IH]; [done|].
  rewrite filter_cons_True by (by rewrite Hstrip).
  rewrite fmap_cons. by rewrite Hstrip, IH.
Qed.

(** X15: a non-empty list of origins of ASCII characters, each non-empty,
    free of commas and of whitespace at its ends, and not the single entry
    [*], is read back unchanged from its comma-separated form. *)
Theorem cors_origins_round_trip origins :
  origins ≠ [] →
  origins ≠ ["*"] →
  Forall (λ o, is_ascii o = true) origins →
  Forall (λ o, o ≠ "" ∧ str_strip o = o ∧ ","%char ∉ chars o) origins →
  cors_origins (Some (String.concat "," origins)) = Some origins.
Proof.
  intros Hsome Hstar _ Hclean.
  assert (split_comma (String.concat "," origins) = origins) as Hsplit.
  { apply split_comma_concat; [done|].
    eapply Forall_impl; [exact Hclean|]. by intros o (_ & _ & ?). }
  unfold cors_origins. cbn [from_option id].
  rewrite bool_decide_eq_false_2.
  2: { intros Heq. rewrite Heq in Hsplit. by destruct Hstar. }
  rewrite bool_decide_eq_false_2.
  2: { intros Hblank. destruct origins as [|o origins]; [done|].
       apply Forall_cons in Hclean as [(Ho & Hstrip & Hfree) _].
       destruct Ho. rewrite <- Hstrip.
       apply str_strip_blank, Forall_forall. intros c Hc.
       apply str_strip_blank in Hblank. rewrite Forall_forall in Hblank.
       apply Hblank.
       assert (o ∈ split_comma (String.concat "," (o :: origins))) as Hin
         by (rewrite Hsplit; by left).
       by destruct (split_comma_chars _ _ _ Hin Hc). }
  cbn [orb]. rewrite Hsplit. f_equal. apply clean_origins_kept.
  eapply Forall_impl; [exact Hclean|]. by intros o (? & ? & _).
Qed.
End Cors.

(** ** The user and farm store *)

Section Store_properties.
Variable sha256_hexdigest : string → string.

Local Abbreviation hash_password := (hash_password sha256_hexdigest).
Local Abbreviation add_user := (add_user sha256_hexdigest).
Local Abbreviation check_user := (check_user sha256_hexdigest).

Implicit Types (db : database) (name password : string) (uid : Z).

Lemma next_rowid_above seq ids id :
  id ∈ ids → (id < next_rowid seq ids)%Z.
Proof.
  unfold next_rowid. induction ids as [|id0 ids IH]; cbn.
  - by intros ?%elem_of_nil.
  - intros [->|Hin]%elem_of_cons; [lia|]. specialize (IH Hin). lia.
Qed.

Lemma next_rowid_fresh seq ids : next_rowid seq ids ∉ ids.
Proof. intros Hin%(next_rowid_above seq). lia. Qed.


Lemma find_app_None {A} (f : A → bool) xs ys :
  find f xs = None → find f (xs ++ ys) = find f ys.
Proof.
  induction xs as [|x xs IH]; cbn; [done|]. destruct (f x); [done|]. apply IH.
Qed.

Lemma find_app_Some {A} (f : A → bool) xs ys x :
  find f xs = Some x → find f (xs ++ ys) = Some x.
Proof.
  induction xs as [|x0 xs IH]; cbn; [done|]. destruct (f x0); [done|]. apply IH.
Qed.

Lemma find_elem_of {A} (f : A → bool) xs x :
  find f xs = Some x → x ∈ xs ∧ f x = true.
Proof.
  induction xs as [|x0 xs IH]; cbn; [done|].
  destruct (f x0) eqn:Hx0.
  - intros [= <-]. split; [by left|done].
  - intros [Hin Hx]%IH. split; [by right|done].
Qed.

(** With unique usernames, the row of a username is the one [find]
    returns. *)
Lemma find_username_unique rows row :
  NoDup (username <$> rows) →
  row ∈ rows →
  find (λ row0, bool_decide (username row0 = username row)) rows = Some row.
Proof.
  induction rows as [|row0 rows IH]; [by intros _ ?%elem_of_nil|].
  rewrite fmap_cons. intros [Hfresh Hnodup]%NoDup_cons.
  intros [->|Hin]%elem_of_cons; cbn.
  - by rewrite bool_decide_eq_true_2.
  - rewrite bool_decide_eq_false_2; [by apply IH|].
    intros Heq. apply Hfresh. rewrite Heq. by apply list_elem_of_fmap_2.
Qed.



(** X18: the login check returns an account only if that account is
    stored under the given username with the hash of the given password;
    with unique usernames it returns every such account. *)
Theorem check_user_sound_and_complete db name password row :
  (check_user db name password = Some row →
   row ∈ users db ∧ username row = name ∧
   password_hash row = hash_password password) ∧
  (NoDup (username <$> users db) →
   row ∈ users db → username row = name →
   password_hash row = hash_password password →
   check_user db name password = Some row).
Proof.
  unfold check_user. split.
  - destruct (find _ _) as [user|] eqn:Hfind; [|done].
    case_bool_decide as Hhash; [|done]. intros [= <-].
    apply find_elem_of in Hfind as [Hin Hname].
    by apply bool_decide_eq_true in Hname.
  - intros Hnodup Hin <- Hhash.
    rewrite (find_username_unique _ _ Hnodup Hin).
    by rewrite bool_decide_eq_true_2.
Qed.

(** X19: signing up never disturbs the other accounts: whatever its
    outcome, the login check of every other username answers as before,
    the stored farms are untouched, and the accounts stored before are
    still stored. *)
Theorem add_user_frame db name password ok db' :
  add_user db name password = (ok, db') →
  (∀ name' password',
     name' ≠ name →
     check_user db' name' password' = check_user db name' password') ∧
  farms db' = farms db ∧
  (∀ row, row ∈ users db → row ∈ users db').
Proof.
  unfold add_user. case_bool_decide as Htaken; intros [= <- <-]; [done|].
  cbn [users farms]. split_and!; [|done|].
  - intros name' password' Hother. unfold check_user. cbn [users].
    destruct (find (λ row, bool_decide (username row = name')) (users db))
      as [user|] eqn:Hfind.
    + by rewrite (find_app_Some _ _ _ _ Hfind).
    + rewrite (find_app_None _ _ _ Hfind). cbn.
      by rewrite bool_decide_eq_false_2.
  - intros row Hrow. apply elem_of_app. by left.
Qed.

Lemma find_fmap_farm uid (g : farm_row → farm_row) rows :
  (∀ row, farm_user_id (g row) = farm_user_id row) →
  find (λ row, bool_decide (farm_user_id row = uid)) (g <$> rows) =
  g <$> find (λ row, bool_decide (farm_user_id row = uid)) rows.
Proof.
  intros Hg. induction rows as [|row rows IH]; [done|].
  rewrite fmap_cons. cbn [find]. rewrite Hg.
  by destruct (bool_decide (farm_user_id row = uid)).
Qed.

Lemma update_farm_details_farms db uid name place soil :
  farms (update_farm_details db uid name place soil).2 =
  match get_farm_details db uid with
  | Some _ =>
      (λ row,
         if bool_decide (farm_user_id row = uid)
         then FarmRow (farm_id row) (farm_user_id row) name place soil
         else row) <$> farms db
  | None =>
      farms db ++
      [FarmRow (next_rowid (farms_seq db) (farm_id <$> farms db))
               uid name place soil]
  end.
Proof.
  unfold update_farm_details, get_farm_details. by destruct (find _ _).
Qed.

Lemma update_farm_details_saved db uid name place soil :
  ∃ db' row,
    update_farm_details db uid name place soil = (true, db') ∧
    get_farm_details db' uid = Some row ∧
    farm_user_id row = uid ∧ farm_name row = name ∧
    location row = place ∧ soil_type row = soil.
Proof.
  pose proof (update_farm_details_farms db uid name place soil) as Hfarms.
  destruct (update_farm_details db uid name place soil) as [ok db'] eqn:Hrun.
  assert (ok = true) as ->.
  { unfold update_farm_details in Hrun. by destruct (find _ _); injection Hrun. }
  cbn [snd] in Hfarms. exists db'.
  unfold get_farm_details in *. rewrite Hfarms.
  destruct (find _ (farms db)) as [old|] eqn:Hfind.
  - rewrite find_fmap_farm, Hfind by (intros row; by case_bool_decide).
    apply find_elem_of in Hfind as [_ Huid%bool_decide_eq_true].
    eexists. split; [done|]. split; [reflexivity|]. cbn.
    by rewrite bool_decide_eq_true_2.
  - rewrite (find_app_None _ _ _ Hfind). cbn.
    rewrite bool_decide_eq_true_2 by done. by eexists.
Qed.

(** X20: for a user id that SQLite stores, a signed 64-bit integer, and a
    farms table that has a row id left to give, saving a farm profile
    succeeds, and the profile then read back for that user carries the
    saved name, location and soil type, whether the user had a profile
    before or not. *)
Theorem update_farm_details_then_get db uid name place soil :
  (- 2 ^ 63 ≤ uid < 2 ^ 63)%Z →
  (next_rowid (farms_seq db) (farm_id <$> farms db) < 2 ^ 63)%Z →
  ∃ db' row,
    update_farm_details db uid name place soil = (true, db') ∧
    get_farm_details db' uid = Some row ∧
    farm_user_id row = uid ∧ farm_name row = name ∧
    location row = place ∧ soil_type row = soil.
Proof. intros _ _. apply update_farm_details_saved. Qed.

(** X21: saving the profile of one user leaves the profile read for every
    other user, and all accounts, as they were. *)
Theorem update_farm_details_frame db uid name place soil uid' :
  uid' ≠ uid →
  get_farm_details (update_farm_details db uid name place soil).2 uid' =
  get_farm_details db uid' ∧
  users (update_farm_details db uid name place soil).2 = users db.
Proof.
  intros Hother. split.
  - unfold get_farm_details at 1. rewrite update_farm_details_farms.
    destruct (get_farm_details db uid) as [old|].
    + rewrite find_fmap_farm by (intros row; by case_bool_decide).
      unfold get_farm_details.
      destruct (find _ (farms db)) as [row|] eqn:Hfind; [|done].
      apply find_elem_of in Hfind as [_ Huid%bool_decide_eq_true].
      cbn. rewrite bool_decide_eq_false_2; [done|]. congruence.
    + unfold get_farm_details.
      destruct (find _ (farms db)) as [row|] eqn:Hfind.
      * by rewrite (find_app_Some _ _ _ _ Hfind).
      * rewrite (find_app_None _ _ _ Hfind). cbn.
        by rewrite bool_decide_eq_false_2.
  - unfold update_farm_details. by destruct (find _ _).
Qed.

Lemma find_farm_None uid rows :
  find (λ row, bool_decide (farm_user_id row = uid)) rows = None →
  uid ∉ farm_user_id <$> rows.
Proof.
  induction rows as [|row rows IH]; cbn [find]; [by intros _ ?%elem_of_nil|].
  case_bool_decide as Hrow; [done|]. intros Hnone.
  rewrite fmap_cons. intros [->|Hin]%elem_of_cons; [done|]. by apply IH.
Qed.

(** X22: both writing operations keep what the schema requires, unique
    usernames and unique primary keys, and saving a profile keeps the
    rule of at most one farm per user when it held before. *)
Theorem writes_keep_database_ok db :
  database_ok db →
  (∀ name password, database_ok (add_user db name password).2) ∧
  (∀ uid name place soil,
     database_ok (update_farm_details db uid name place soil).2 ∧
     (NoDup (farm_user_id <$> farms db) →
      NoDup (farm_user_id <$>
             farms (update_farm_details db uid name place soil).2))).
Proof.
  intros (Hnames & Hids & Hfarms). split.
  - intros name password. unfold add_user.
    case_bool_decide as Htaken; [done|]. cbn [snd].
    split_and!; cbn [users farms]; [| |done].
    + rewrite fmap_app. apply NoDup_app. split_and!; [done| |].
      * intros name' Hin ->%list_elem_of_singleton. done.
      * apply NoDup_singleton.
    + rewrite fmap_app. apply NoDup_app. split_and!; [done| |].
      * intros id Hin ->%list_elem_of_singleton.
        by apply next_rowid_fresh in Hin.
      * apply NoDup_singleton.
  - intros uid name place soil.
    assert (users (update_farm_details db uid name place soil).2 = users db)
      as Husers.
    { unfold update_farm_details. by destruct (find _ _). }
    unfold database_ok. rewrite Husers, update_farm_details_farms.
    unfold get_farm_details.
    destruct (find _ (farms db)) as [old|] eqn:Hfind.
    + rewrite <- !list_fmap_compose.
      assert (∀ rows : list farm_row,
                farm_id ∘ (λ row,
                   if bool_decide (farm_user_id row = uid)
                   then FarmRow (farm_id row) (farm_user_id row) name place soil
                   else row) <$> rows = farm_id <$> rows) as ->.
      { intros rows. apply list_fmap_ext. intros _ row _. cbn.
        by case_bool_decide. }
      assert (∀ rows : list farm_row,
                farm_user_id ∘ (λ row,
                   if bool_decide (farm_user_id row = uid)
                   then FarmRow (farm_id row) (farm_user_id row) name place soil
                   else row) <$> rows = farm_user_id <$> rows) as ->.
      { intros rows. apply list_fmap_ext. intros _ row _. cbn.
        by case_bool_decide. }
      done.
    + rewrite !fmap_app. split_and!; [done..| |].
      * apply NoDup_app. split_and!; [done| |apply NoDup_singleton].
        intros id Hin ->%list_elem_of_singleton.
        by apply next_rowid_fresh in Hin.
      * intros Hone. apply NoDup_app. split_and!; [done| |apply NoDup_singleton].
        intros uid' Hin ->%list_elem_of_singleton.
        by apply find_farm_None in Hfind.
Qed.

(** X23: saving a profile again overwrites the row in place: the second
    save adds no row and keeps every row id. *)
Theorem update_farm_details_overwrites
    db uid name place soil name' place' soil' :
  farm_id <$>
    farms (update_farm_details
             (update_farm_details db uid name place soil).2
             uid name' place' soil').2 =
  farm_id <$> farms (update_farm_details db uid name place soil).2.
Proof.
  destruct (update_farm_details_saved db uid name place soil)
    as (db1 & row & Hrun & Hget & _).
  rewrite Hrun. cbn [snd].
  rewrite (update_farm_details_farms db1), Hget.
  rewrite <- list_fmap_compose. apply list_fmap_ext. intros _ row0 _. cbn.
  by case_bool_decide.
Qed.
End Store_properties.


(** ** Further worked instances *)

Section More_instances.
Local Abbreviation resolve := (to_crop_name (float64 := Q) sample_str_container).
Local Abbreviation rank :=
  (top_k_predictions (float64 := Q) str_lower sample_str_container
     insertion_argsort).
Local Abbreviation handle :=
  (predict str_lower sample_float sample_str_container insertion_argsort).

Lemma predict_rejects_unconvertible_field_witness :
  handle sample_model sample_crop_info None (Some (JObject acid_request)) [] =
  (Ok (Response
         (ErrorBody "float() argument must be a string or a real number") 500),
   []).
Proof.
  apply (predict_rejects_unconvertible_field str_lower
           sample_float sample_str_container insertion_argsort sample_model
           sample_crop_info None acid_request 5 "ph"
           (TypeError "float() argument must be a string or a real number") []).
  - by vm_compute.
  - reflexivity.
  - by vm_compute.
  - intros m key' Hm Hkey'.
    destruct m as [|[|[|[|[|m]]]]]; [..|lia];
      injection Hkey' as <-; by eexists; vm_compute.
Defined.

Lemma predict_reports_classifier_failure_witness :
  handle failing_model sample_crop_info None (Some (JObject sample_request)) [] =
  (Ok (Response (ErrorBody "model failure") 500),
   [CallPredict (replicate 7 50%Q)]).
Proof.
  destruct (predict_reports_classifier_failure str_lower
              sample_float sample_str_container insertion_argsort failing_model
              sample_crop_info None sample_request (replicate 7 50%Q) [])
    as [Hraises _].
  - by vm_compute.
  - by vm_compute.
  - exact (Hraises (OtherException "model failure") eq_refl).
Defined.

Lemma predict_top_3_size_witness :
  1 ≤ length [Ranked "maize" (7 # 10) no_information;
              Ranked "jute" (2 # 10) no_information;
              Ranked "rice" (1 # 10) "Rice needs standing water."] ≤ 3.
Proof.
  apply (predict_top_3_size str_lower
           sample_float sample_str_container insertion_argsort sample_model
           sample_crop_info None (Some (JObject sample_request)) []
           "banana" "Banana needs a warm climate." _ 200
           [CallPredict (replicate 7 50%Q); CallPredictProba (replicate 7 50%Q)]).
  by vm_compute.
Defined.

Lemma to_crop_name_unwraps_one_level_witness :
  resolve sample_crop_info None (NdArray [NpInteger 2]) [] =
  resolve sample_crop_info None (NpInteger 2) [] ∧
  resolve sample_crop_info None (PyList [PyList [PyInt 2]]) [] =
  (Ok (sample_str_container (PyList [PyInt 2])), []).
Proof.
  split.
  - destruct (to_crop_name_unwraps_one_level (float64 := Q)
                sample_str_container sample_crop_info None (NpInteger 2) [])
      as [Hscalar _].
    by destruct (Hscalar eq_refl).
  - destruct (to_crop_name_unwraps_one_level (float64 := Q)
                sample_str_container sample_crop_info None
                (PyList [PyInt 2]) []) as [_ Hnested].
    by destruct (Hnested eq_refl).
Defined.

Lemma to_crop_name_fallback_bounds_witness :
  (∃ description,
     (resolve sample_crop_info None (NpInteger 1) []).1 = Ok "rice" ∧
     dict_lookup sample_crop_info "rice" = Some description) ∧
  (resolve sample_crop_info None (PyInt (-1)) []).1 = Ok "-1".
Proof.
  split.
  - destruct (to_crop_name_fallback_bounds (float64 := Q)
                sample_str_container sample_crop_info None (NpInteger 1) []
                eq_refl (or_introl eq_refl)) as [Hinside _].
    destruct Hinside as (name & description & Hname & Hkey & Hfound);
      [cbn; lia|].
    injection Hkey as <-. by exists description.
  - destruct (to_crop_name_fallback_bounds (float64 := Q)
                sample_str_container sample_crop_info None (PyInt (-1)) []
                eq_refl (or_introl eq_refl)) as [_ Houtside].
    apply Houtside. cbn. lia.
Defined.

Lemma top_k_predictions_nonpositive_k_witness :
  ∃ results log',
    rank sample_model sample_crop_info None [] (-1) [] =
    (Ok (Some results), log') ∧
    length results = 2.
Proof.
  destruct (top_k_predictions_nonpositive_k str_lower
              sample_str_container insertion_argsort sample_model
              sample_crop_info None [] (-1)
              (λ _, Ok [[1 # 10; 7 # 10; 2 # 10]%Q])
              [1 # 10; 7 # 10; 2 # 10]%Q []
              [PyStr "rice"; PyStr "maize"; PyStr "jute"] []
              insertion_argsort_spec eq_refl eq_refl eq_refl eq_refl)
    as (results & log' & Hrun & _ & Hlength & _); [lia|].
  exists results, log'. split; [exact Hrun|]. apply Hlength. lia.
Defined.

Lemma top_k_predictions_keeps_the_largest_witness :
  ∃ results log',
    rank sample_model sample_crop_info None [] 2 [] =
    (Ok (Some results), log') ∧
    ∀ entry, entry ∈ results → (1 # 10 <= probability entry)%Q.
Proof.
  destruct (top_k_predictions_keeps_the_largest str_lower
              sample_str_container insertion_argsort sample_model
              sample_crop_info None [] 2
              (λ _, Ok [[1 # 10; 7 # 10; 2 # 10]%Q])
              [1 # 10; 7 # 10; 2 # 10]%Q []
              [PyStr "rice"; PyStr "maize"; PyStr "jute"] []
              insertion_argsort_spec eq_refl eq_refl eq_refl eq_refl)
    as (results & log' & Hrun & Hlargest).
  exists results, log'. split; [exact Hrun|]. intros entry Hentry.
  apply (Hlargest 0 entry); [cbn; lia| |exact Hentry].
  vm_compute. intros Hin. apply list_elem_of_In in Hin.
  destruct Hin as [|[|[]]]; discriminate.
Defined.

Lemma top_k_predictions_short_classes_witness :
  ∃ msg,
    (rank short_model sample_crop_info None [] 3 []).1 = Raise (IndexError msg).
Proof.
  apply (top_k_predictions_short_classes str_lower
           sample_str_container insertion_argsort short_model
           sample_crop_info None [] 3
           (λ _, Ok [[1 # 10; 2 # 10; 7 # 10]%Q])
           [1 # 10; 2 # 10; 7 # 10]%Q []
           [PyStr "rice"; PyStr "maize"] 2 []).
  - reflexivity.
  - reflexivity.
  - reflexivity.
  - vm_compute. by left.
  - cbn. lia.
Defined.

Example cors_origins_sample :
  cors_origins (Some " https://a.example ,http://b.example,, ") =
  Some ["https://a.example"; "http://b.example"].
Proof. reflexivity. Qed.

Lemma cors_origins_clean_witness :
  "http://b.example" ≠ "" ∧
  str_strip "http://b.example" = "http://b.example" ∧
  ","%char ∉ chars "http://b.example".
Proof.
  destruct (cors_origins_clean
              (Some " https://a.example ,http://b.example,, ")
              ["https://a.example"; "http://b.example"] "http://b.example")
    as (Hsome & Hstrip & Hfree & _).
  - reflexivity.
  - right. by left.
  - by split_and!.
Defined.

Lemma cors_origins_allow_all_witness :
  cors_origins (Some "   ") = None.
Proof.
  apply (cors_origins_allow_all (Some "   ")).
  - by intros value [= <-].
  - right. right. exists "   ". split; [done|]. by repeat constructor.
Defined.

Lemma cors_origins_only_separators_witness :
  cors_origins (Some ", ,") = Some [].
Proof.
  apply cors_origins_only_separators.
  - by left.
  - repeat constructor; by (left + right).
Defined.

Lemma cors_origins_round_trip_witness :
  cors_origins (Some "https://a.example,http://b.example") =
  Some ["https://a.example"; "http://b.example"].
Proof.
  apply (cors_origins_round_trip ["https://a.example"; "http://b.example"]).
  - done.
  - done.
  - by repeat constructor.
  - apply Forall_cons. split; [split_and!; [done|done|compute_done]|].
    apply Forall_cons. split; [split_and!; [done|done|compute_done]|].
    constructor.
Defined.
End More_instances.

Section Store_instances.
Local Abbreviation sign_up := (add_user sample_digest).
Local Abbreviation log_in := (check_user sample_digest).



Lemma check_user_sound_and_complete_witness :
  log_in sample_database "asha" "monsoon" =
  Some (UserRow 1 "asha" (sample_digest "monsoon")).
Proof.
  destruct (check_user_sound_and_complete sample_digest sample_database
              "asha" "monsoon" (UserRow 1 "asha" (sample_digest "monsoon")))
    as [_ Hcomplete].
  apply Hcomplete; [compute_done|by left|done|done].
Defined.

Lemma add_user_frame_witness :
  log_in (sign_up sample_database "ravi" "harvest").2 "asha" "monsoon" =
  log_in sample_database "asha" "monsoon" ∧
  farms (sign_up sample_database "ravi" "harvest").2 = farms sample_database.
Proof.
  destruct (add_user_frame sample_digest sample_database "ravi" "harvest"
              true (sign_up sample_database "ravi" "harvest").2 eq_refl)
    as (Hothers & Hfarms & _).
  split; [|exact Hfarms]. by apply Hothers.
Defined.

Lemma update_farm_details_then_get_witness :
  ∃ db' row,
    update_farm_details sample_database 2 "Riverside" "Nashik" "Clayey" =
    (true, db') ∧
    get_farm_details db' 2 = Some row ∧
    farm_user_id row = 2%Z ∧ farm_name row = "Riverside" ∧
    location row = "Nashik" ∧ soil_type row = "Clayey".
Proof.
  apply (update_farm_details_then_get sample_database 2 "Riverside" "Nashik"
           "Clayey").
  - lia.
  - by vm_compute.
Defined.

Lemma update_farm_details_frame_witness :
  get_farm_details
    (update_farm_details sample_database 2 "Riverside" "Nashik" "Clayey").2 1 =
  get_farm_details sample_database 1.
Proof.
  apply (update_farm_details_frame sample_database 2 "Riverside" "Nashik"
           "Clayey" 1).
  lia.
Defined.

Lemma writes_keep_database_ok_witness :
  database_ok (sign_up sample_database "ravi" "harvest").2 ∧
  database_ok
    (update_farm_details sample_database 2 "Riverside" "Nashik" "Clayey").2.
Proof.
  assert (database_ok sample_database) as Hok.
  { unfold database_ok. split_and!; compute_done. }
  destruct (writes_keep_database_ok sample_digest sample_database Hok)
    as [Hadd Hupdate].
  split; [apply Hadd | apply Hupdate].
Defined.
End Store_instances.

(** ** String class labels, and where resolution can fail *)

Section Labels.
Context {float64 : Type}.
Variable lower : string → string.
Variable str_container : pyval → string.
Variable argsort : list Q → list nat.
Variable model : classifier (list float64).
Variable crop_info : pydict string.
Variable label_encoder : option (Z → res pyval).

Local Abbreviation F := (list float64).
Local Abbreviation str := (py_str str_container).
Local Abbreviation to_crop_name :=
  (to_crop_name (float64 := float64) str_container crop_info label_encoder).
Local Abbreviation map_class_label :=
  (map_class_label (float64 := float64) str_container crop_info label_encoder).
Local Abbreviation top_k_predictions :=
  (top_k_predictions lower str_container argsort model crop_info label_encoder).

(** A loop whose body succeeds without logging anything. *)
Lemma for_each_quiet {A B} (f : A → Py F B) (P : A → B → Prop) xs log :
  (∀ x, x ∈ xs → ∃ y, f x log = (Ok y, log) ∧ P x y) →
  ∃ ys, for_each f xs log = (Ok ys, log) ∧ Forall2 P xs ys.
Proof.
  induction xs as [|x xs IH]; intros Hbody.
  - exists []. by split; [|constructor].
  - destruct (Hbody x) as (y & Hy & HP); [by left|].
    destruct IH as (ys & Hys & HPs).
    { intros x' Hx'. apply Hbody. by right. }
    exists (y :: ys). cbn [for_each]. unfold bind at 1. rewrite Hy.
    unfold bind at 1. rewrite Hys. by split; [|constructor].
Qed.

(** X24: when the classifier's classes are strings, every label of the
    ranking is the class string itself, and the only call made is the one
    to [predict_proba]: the encoder is never consulted. *)
Theorem top_k_predictions_string_classes
    features k predict_proba probs rest classes log :
  argsort_spec argsort →
  model_predict_proba model = Some predict_proba →
  predict_proba features = Ok (probs :: rest) →
  model_classes_ model = Some classes →
  length classes = length probs →
  Forall (λ cls, is_str cls = true) classes →
  ∃ results,
    top_k_predictions features k log =
    (Ok (Some results), log ++ [CallPredictProba features]) ∧
    Forall2
      (λ idx entry,
         probability entry = prob_at probs idx ∧
         ∃ cls, classes !! idx = Some cls ∧ label entry = str cls)
      (slice_to k (reverse (argsort probs))) results.
Proof.
  intros Hspec Hproba Hrun Hclasses Hlen Hstr.
  unfold top_k_predictions. rewrite Hproba, Hclasses.
  unfold bind at 1, external at 1. rewrite Hrun.
  unfold bind at 1, lift at 1. cbn [seq_getitem lookup list_lookup].
  set (body := λ idx : nat, _).
  destruct (for_each_quiet body
              (λ idx entry,
                 probability entry = prob_at probs idx ∧
                 ∃ cls, classes !! idx = Some cls ∧ label entry = str cls)
              (slice_to k (reverse (argsort probs)))
              (log ++ [CallPredictProba features]))
    as (results & Hloop & Hrel).
  { intros idx Hidx%(sliced_indices_bound _ _ _ _ Hspec).
    destruct (lookup_lt_is_Some_2 classes idx) as [cls Hcls]; [lia|].
    destruct (lookup_lt_is_Some_2 probs idx) as [p Hp]; [done|].
    assert (is_str cls = true) as Hcls_str.
    { rewrite Forall_forall in Hstr. apply Hstr.
      by eapply list_elem_of_lookup_2. }
    exists (Ranked (str cls) p
              (dict_get crop_info (lower (str cls)) no_information)).
    split.
    - unfold body, bind at 1, lift at 1, seq_getitem. rewrite Hcls.
      assert (is_integer cls = false) as Hnot by (by destruct cls).
      unfold bind at 1.
      rewrite (map_class_label_other str_container crop_info label_encoder
                 cls _ Hnot).
      unfold bind at 1, lift at 1. by rewrite Hp.
    - split; [unfold prob_at; by rewrite Hp|]. by exists cls. }
  exists results. unfold bind at 1. by rewrite Hloop.
Qed.

(** X25: each resolver makes at most one outside call, to the encoder's
    inverse transform, and none when no encoder is loaded; neither calls
    the classifier.  [map_class_label] makes the call exactly when the
    value is integer-typed and an encoder is loaded. *)
Theorem resolvers_encoder_calls v log :
  (∃ outcome,
     map_class_label v log =
     (outcome,
      log ++ (if is_integer v && bool_decide (is_Some label_encoder)
              then [CallInverseTransform (py_int v)] else []))) ∧
  (∃ outcome calls,
     to_crop_name v log = (outcome, log ++ calls) ∧
     (calls = [] ∨
      is_Some label_encoder ∧ ∃ i, calls = [CallInverseTransform i])).
Proof.
  assert (∀ x,
            ∃ outcome,
              map_class_label x log =
              (outcome,
               log ++ (if is_integer x && bool_decide (is_Some label_encoder)
                       then [CallInverseTransform (py_int x)] else [])))
    as Hmap.
  { intros x. destruct (is_integer x) eqn:Hint.
    - rewrite map_class_label_integer_outcome by done. unfold integer_outcome.
      destruct label_encoder as [it|]; cbn.
      + destruct (it (py_int x)); by eexists.
      + eexists. by rewrite app_nil_r.
    - rewrite map_class_label_other by done. cbn.
      eexists. by rewrite app_nil_r. }
  split; [apply Hmap|].
  rewrite to_crop_name_unwrap. destruct (unwrapped v) as [x|e].
  - destruct (is_ndarray_or_list x).
    + eexists _, []. rewrite app_nil_r. by split; [|left].
    + destruct (Hmap x) as [outcome ->]. eexists _, _. split; [done|].
      destruct (is_integer x); [|by left].
      destruct label_encoder as [it|]; cbn; [|by left].
      right. split; [done|]. by eexists.
  - eexists _, []. rewrite app_nil_r. by split; [|left].
Qed.
End Labels.

Section Label_instances.
Lemma top_k_predictions_string_classes_witness :
  ∃ results,
    top_k_predictions (float64 := Q) str_lower sample_str_container
      insertion_argsort sample_model sample_crop_info (Some sample_encoder) [] 1 [] =
    (Ok (Some results), [CallPredictProba []]) ∧
    Forall2
      (λ idx entry,
         probability entry = prob_at [1 # 10; 7 # 10; 2 # 10]%Q idx ∧
         ∃ cls, [PyStr "rice"; PyStr "maize"; PyStr "jute"] !! idx = Some cls ∧
                label entry = py_str sample_str_container cls)
      [1] results.
Proof.
  apply (top_k_predictions_string_classes str_lower
           sample_str_container insertion_argsort sample_model
           sample_crop_info (Some sample_encoder) [] 1
           (λ _, Ok [[1 # 10; 7 # 10; 2 # 10]%Q])
           [1 # 10; 7 # 10; 2 # 10]%Q []
           [PyStr "rice"; PyStr "maize"; PyStr "jute"] []).
  - apply insertion_argsort_spec.
  - reflexivity.
  - reflexivity.
  - reflexivity.
  - reflexivity.
  - by repeat constructor.
Defined.
End Label_instances.


(** ** The catalog lookup *)

Section Catalog.
Context {float64 : Type}.
Variable lower : string → string.
Variable py_float : json → res float64.
Variable str_container : pyval → string.
Variable argsort : list Q → list nat.
Variable model : classifier (list float64).
Variable crop_info : pydict string.
Variable label_encoder : option (Z → res pyval).

Local Abbreviation to_crop_name :=
  (to_crop_name (float64 := float64) str_container crop_info label_encoder).
Local Abbreviation map_class_label :=
  (map_class_label (float64 := float64) str_container crop_info label_encoder).
Local Abbreviation top_k_predictions :=
  (top_k_predictions lower str_container argsort model crop_info label_encoder).
Local Abbreviation predict :=
  (predict lower py_float str_container argsort model crop_info label_encoder).

Lemma upper_ascii_keeps_range c :
  (nat_of_ascii (upper_ascii c) <? 128)%nat = (nat_of_ascii c <? 128)%nat.
Proof. by destruct c as [[] [] [] [] [] [] [] []]. Qed.

(** A recapitalisation of ASCII text is ASCII text. *)
Lemma recapitalized_ascii s t :
  recapitalized s t = true → is_ascii s = true → is_ascii t = true.
Proof.
  revert t. induction s as [|c s IH]; intros [|d t];
    cbn [recapitalized is_ascii]; try done.
  intros [Hcd Hst]%andb_true_iff [Hc Hs]%andb_true_iff.
  apply andb_true_iff. split; [|by apply IH].
  unfold same_letter in Hcd. apply Ascii.eqb_eq in Hcd.
  by rewrite <- upper_ascii_keeps_range, <- Hcd, upper_ascii_keeps_range.
Qed.

Lemma dict_lookup_None {V} (d : pydict V) key :
  key ∉ dict_keys d → dict_lookup d key = None.
Proof.
  induction d as [|[key0 v] d IH]; cbn; [done|].
  intros Hfree. case_decide as Hkey.
  - destruct Hfree. rewrite Hkey. by left.
  - apply IH. intros Hin. apply Hfree. by right.
Qed.

Lemma described_by_lookup label :
  lower_spec lower →
  described_by lower crop_info label
    (dict_get crop_info (lower label) no_information).
Proof.
  intros Hlower. split_and!; [done| |].
  - intros key text Hascii Hkey Hcase Hfound.
    rewrite Hlower by (by eapply recapitalized_ascii).
    rewrite <- (recapitalized_lower _ _ Hcase), Hkey.
    unfold dict_get. by rewrite Hfound.
  - intros Hfree. unfold dict_get. by rewrite dict_lookup_None.
Qed.

Lemma Forall2_and_r {A B} (P : A → B → Prop) (Q : B → Prop) xs ys :
  Forall2 P xs ys → Forall Q ys → Forall2 (λ x y, P x y ∧ Q y) xs ys.
Proof.
  induction 1 as [|x y xs ys Hxy _ IH]; [constructor|].
  intros [Hy Hys]%Forall_cons. constructor; [done|by apply IH].
Qed.

(** C6: the descriptive text is looked up in the catalog by the label
    lowercased, in the [/predict] response and in every entry of the
    ranking.  A request that is served gets status 200 with the text
    [described_by] gives for the resolved label, and a ranking holds that
    text for each of its labels: the entry of a lowercase key for every
    capitalisation of that key, and the sentinel when the lowercased label
    is not a key of the catalog. *)
Theorem info_lookup_by_lowercased_label :
  lower_spec lower →
  (∀ data features first rest label_str top3 log log1 log2,
     first_missing data required = None →
     float_fields py_float data required = Ok features →
     model_predict model features = Ok (first :: rest) →
     to_crop_name first (log ++ [CallPredict features]) = (Ok label_str, log1) →
     top_k_predictions features 3 log1 = (Ok top3, log2) →
     ∃ description,
       predict (Some (JObject data)) log =
       (Ok (Response
              (PredictionBody label_str description
                 (if truthy top3 then top3 else None))
              200),
        log2) ∧
       described_by lower crop_info label_str description) ∧
  (∀ features k predict_proba probs rest classes log,
     argsort_spec argsort →
     model_predict_proba model = Some predict_proba →
     predict_proba features = Ok (probs :: rest) →
     model_classes_ model = Some classes →
     length classes = length probs →
     ∃ results log',
       top_k_predictions features k log = (Ok (Some results), log') ∧
       Forall2
         (λ idx entry,
            (probability entry = prob_at probs idx ∧
             ∃ cls, classes !! idx = Some cls ∧
                    (map_class_label cls []).1 = Ok (label entry)) ∧
            described_by lower crop_info (label entry) (info entry))
         (slice_to k (reverse (argsort probs))) results).
Proof.
  intros Hlower. split.
  - intros data features first rest label_str top3 log log1 log2
      Hmissing Hfields Hpredict Hlabel Htop.
    exists (dict_get crop_info (lower label_str) no_information).
    split; [|by apply described_by_lookup].
    rewrite (predict_validated _ _ _ _ _ _ _ _ _ _ Hmissing Hfields).
    unfold try_except, predict_features.
    unfold bind at 1, external at 1. rewrite Hpredict.
    unfold bind at 1, lift at 1. cbn [seq_getitem lookup list_lookup].
    unfold bind at 1. rewrite Hlabel.
    unfold bind at 1. by rewrite Htop.
  - intros features k predict_proba probs rest classes log
      Hspec Hproba Hrun Hclasses Hlen.
    destruct (top_k_predictions_run lower str_container argsort model crop_info
                label_encoder features k predict_proba probs rest classes log
                Hproba Hrun Hclasses)
      as (results & log' & Htop & Hrel).
    { intros idx Hidx%(sliced_indices_bound _ _ _ _ Hspec). lia. }
    exists results, log'. split; [done|].
    apply Forall2_and_r; [done|].
    eapply Forall_impl; [by eapply top_k_predictions_info|].
    intros entry ->. by apply described_by_lookup.
Qed.
End Catalog.

Section Catalog_instances.
Lemma str_lower_spec : lower_spec str_lower.
Proof. by intros s _. Qed.

Lemma info_lookup_by_lowercased_label_witness :
  (∃ description,
     predict str_lower sample_float sample_str_container insertion_argsort
       shouting_model sample_crop_info None (Some (JObject sample_request)) [] =
     (Ok (Response
            (PredictionBody "RICE" description
               (Some [Ranked "Rice" (6 # 10) "Rice needs standing water.";
                      Ranked "MAIZE" (4 # 10) no_information]))
            200),
      [CallPredict (replicate 7 50%Q); CallPredictProba (replicate 7 50%Q)]) ∧
     description = "Rice needs standing water.") ∧
  (∃ results log',
     top_k_predictions (float64 := Q) str_lower sample_str_container
       insertion_argsort shouting_model sample_crop_info None [] 3 [] =
     (Ok (Some results), log') ∧
     Forall2
       (λ idx entry,
          (probability entry = prob_at [6 # 10; 4 # 10]%Q idx ∧
           ∃ cls, [PyStr "Rice"; PyStr "MAIZE"] !! idx = Some cls ∧
                  (map_class_label (float64 := Q) sample_str_container
                     sample_crop_info None cls []).1 = Ok (label entry)) ∧
          described_by str_lower sample_crop_info (label entry) (info entry))
       [0; 1] results).
Proof.
  destruct (info_lookup_by_lowercased_label
              str_lower sample_float sample_str_container insertion_argsort
              shouting_model sample_crop_info None str_lower_spec)
    as [Hpredict Hrank].
  split.
  - destruct (Hpredict sample_request (replicate 7 50%Q) (NpStr "RICE") []
                "RICE"
                (Some [Ranked "Rice" (6 # 10) "Rice needs standing water.";
                       Ranked "MAIZE" (4 # 10) no_information])
                [] [CallPredict (replicate 7 50%Q)]
                [CallPredict (replicate 7 50%Q);
                 CallPredictProba (replicate 7 50%Q)])
      as (description & Hrun & _ & Hcase & _);
      [by vm_compute..|].
    exists description. split; [exact Hrun|].
    by apply (Hcase "rice").
  - apply (Hrank [] 3%Z (λ _, Ok [[6 # 10; 4 # 10]%Q]) [6 # 10; 4 # 10]%Q []
             [PyStr "Rice"; PyStr "MAIZE"] []);
      [apply insertion_argsort_spec|reflexivity..].
Defined.
End Catalog_instances.
